(** * gomelon: lifecycle and administration core

    A shallow embedding of the Go packages [gomelon] and [gomelon/core]
    (lifecycle environment, bootstrap, admin handlers and tasks), with the
    properties of their ordering, failure and reporting behaviour.

    Conventions of the embedding:
    - Go strings are [string]; [map[string]T] is [gmap string T];
      slices are lists, [append] is [++].
    - A Go [error] value is represented by the text of its [Error()]
      method; a [nil] error is [None].
    - User code reached through an interface ([Managed], [Bundle],
      [Command], [Application]) is a function on an abstract process
      state [W]; the framework code threads that state through the calls
      in the order in which the Go code makes them.
    - Each call that the framework makes to user code, to a logger or to
      the builtin [println], is also recorded as an [Event], so that the
      order of the calls can be stated. *)

From stdpp Require Import gmap strings list fin_maps pretty.

Open Scope string_scope.
Open Scope list_scope.

(** ** Strings *)

Definition LF : string := String (Ascii.ascii_of_nat 10) "".
Definition TAB : string := String (Ascii.ascii_of_nat 9) "".
Definition DQUOTE : string := String (Ascii.ascii_of_nat 34) "".

(** ASCII case folding, byte by byte. *)
Definition asciiLower (a : Ascii.ascii) : Ascii.ascii :=
  let n := Ascii.N_of_ascii a in
  if ((65 <=? n) && (n <=? 90))%N then Ascii.ascii_of_N (n + 32) else a.

Definition asciiUpper (a : Ascii.ascii) : Ascii.ascii :=
  let n := Ascii.N_of_ascii a in
  if ((97 <=? n) && (n <=? 122))%N then Ascii.ascii_of_N (n - 32) else a.

Fixpoint ToUpper (s : string) : string :=
  match s with
  | "" => ""
  | String a s' => String (asciiUpper a) (ToUpper s')
  end.

(** [strings.EqualFold], on ASCII. The Go function folds case by Unicode
    simple folding over UTF-8; against a string made only of the ASCII
    letters other than K and S (such as the level names below, the only
    second operand in this code) that is equality of the bytes up to ASCII
    case, because no byte of a multi-byte rune equals an ASCII byte and
    only K and S have a fold outside ASCII. *)
Fixpoint EqualFold (s t : string) : bool :=
  match s, t with
  | "", "" => true
  | String a s', String b t' =>
      Ascii.eqb (asciiLower a) (asciiLower b) && EqualFold s' t'
  | _, _ => false
  end.

(** ** Errors *)

(** A non-nil Go [error]; [Error] is its [Error()] text. *)
Module errors.
Record error := New { Error : string }.
End errors.
Import errors.

(** ** The logging library gol, as far as this code uses it *)

Module gol.

(** Modelled from the spec: [gol.Level] and [gol.LevelString] are declared
    in the logging library, outside these sources; the levels are those
    that [parseLogLevel] lists, in its order, and their names are the
    seven that the spec gives. *)
Inductive Level :=
| LevelAll | LevelTrace | LevelDebug | LevelInfo
| LevelWarn | LevelError | LevelOff.

#[global] Instance Level_eq_dec : EqDecision Level.
Proof. solve_decision. Defined.

Definition LevelString (l : Level) : string :=
  match l with
  | LevelAll => "ALL" | LevelTrace => "TRACE" | LevelDebug => "DEBUG"
  | LevelInfo => "INFO" | LevelWarn => "WARN" | LevelError => "ERROR"
  | LevelOff => "OFF"
  end.

(** Modelled from the spec: the loggers of the library, which the spec
    describes as a capability exposing [SetLevel] and [Level] that not
    every logger supports. [gol.GetLogger(name)] returns the logger of
    that name and creates it on first use. A logger is a default logger
    (Go type [*gol.DefaultLogger]), which has a level that [SetLevel]
    changes and [Level] reads, or a logger of another implementation, on
    which the type assertion of the log task fails. What a first use
    creates is a parameter of the library state. Levels are kept logger
    by logger: what a logger without a level of its own takes over from
    another logger is not represented. *)
Inductive Logger :=
| DefaultLogger (level : Level)
| OtherLogger.

Record Loggers := {
  existing : gmap string Logger;
  fresh : string -> Logger
}.

Definition GetLogger (name : string) (g : Loggers) : Logger * Loggers :=
  match existing g !! name with
  | Some l => (l, g)
  | None =>
      (fresh g name,
       {| existing := <[name := fresh g name]> (existing g); fresh := fresh g |})
  end.

(** [logger.SetLevel(level)] on the default logger of that name. *)
Definition SetLevel (name : string) (level : Level) (g : Loggers) : Loggers :=
  {| existing := <[name := DefaultLogger level]> (existing g);
     fresh := fresh g |}.

(** The level that [Level()] reads on the logger of that name in state
    [g]; [None] where the logger is not a default logger. *)
Definition currentLevel (g : Loggers) (name : string) : option Level :=
  match fst (GetLogger name g) with
  | DefaultLogger l => Some l
  | OtherLogger => None
  end.

End gol.

Import gol.

(** ** Events

    The trace of a run: each call that framework code makes to user code
    (with the error it returned, where the method returns one), each call
    to a logger method and each line printed with the builtin [println]. *)
Inductive Event :=
| EvStart (i : nat) (r : option error)
    (* r = managedObjects[i].Start() *)
| EvStop (i : nat) (r : option error)
    (* r = managedObjects[i].Stop() *)
| EvBundleInitialize
    (* bundle.Initialize(bootstrap) *)
| EvBundleRun (i : nat) (r : option error)
    (* r = bundles[i].Run(configuration, environment) *)
| EvAppConfiguration
    (* app.Configuration() *)
| EvAppInitialize
    (* app.Initialize(bootstrap) *)
| EvCommandRun (i : nat) (r : option error)
    (* r = commands[i].Run(bootstrap) *)
| EvLog (logger : string) (lvl : Level) (msg : string)
    (* gol.GetLogger(logger).<Lvl>(msg) *)
| EvPrintln (line : string).
    (* println(...): the operands separated by spaces *)

(** The indices of the managed objects started and stopped and of the
    commands run, and the lines printed, in the order of the trace. *)
Definition started (t : list Event) : list nat :=
  omap (fun e => match e with EvStart i _ => Some i | _ => None end) t.

Definition stopped (t : list Event) : list nat :=
  omap (fun e => match e with EvStop i _ => Some i | _ => None end) t.

Definition commandsRun (t : list Event) : list nat :=
  omap (fun e => match e with EvCommandRun i _ => Some i | _ => None end) t.

Definition printed (t : list Event) : list string :=
  omap (fun e => match e with EvPrintln l => Some l | _ => None end) t.

(** ** The monad of framework code

    A computation reads and updates the process state [W], appends to the
    trace of events, and either returns a value or panics (Go's run-time
    panic, here only an index out of range). *)

Inductive Outcome (A : Type) :=
| Ok (a : A)
| Panic (msg : string).
Arguments Ok {A} a.
Arguments Panic {A} msg.

Record Ran (W A : Type) := mkRan {
  outcome : Outcome A;
  world : W;
  events : list Event
}.
Arguments mkRan {W A} _ _ _.
Arguments outcome {W A} _.
Arguments world {W A} _.
Arguments events {W A} _.

Definition Exec (W A : Type) := W -> Ran W A.

Definition ret {W A} (a : A) : Exec W A := fun w => mkRan (Ok a) w [].

Definition bind {W A B} (m : Exec W A) (f : A -> Exec W B) : Exec W B :=
  fun w =>
    let r := m w in
    match outcome r with
    | Ok a => let r' := f a (world r) in
              mkRan (outcome r') (world r') (events r ++ events r')
    | Panic msg => mkRan (Panic msg) (world r) (events r)
    end.

Definition emit {W} (e : Event) : Exec W unit := fun w => mkRan (Ok tt) w [e].

Definition panic {W A} (msg : string) : Exec W A := fun w => mkRan (Panic msg) w [].

(** A call into user code: the effect of the callee on the state, and
    the event that records the call with what it returned. *)
Definition call {W A} (e : A -> Event) (f : W -> A * W) : Exec W A :=
  fun w => let '(a, w') := f w in mkRan (Ok a) w' [e a].

Declare Scope run_scope.
Delimit Scope run_scope with run.
Notation "x <- m ;; k" := (bind m (fun x => k))
  (at level 100, m at next level, right associativity) : run_scope.
Notation "m ;;; k" := (bind m (fun _ => k))
  (at level 100, right associativity) : run_scope.
Open Scope run_scope.

(** ** net/http, as far as the handlers use it *)

Module http.

Definition StatusOK : nat := 200.
Definition StatusBadRequest : nat := 400.
Definition StatusInternalServerError : nat := 500.
Definition StatusNotImplemented : nat := 501.

(** [http.Header]: the values of each key. The keys that this code uses
    are in canonical form already. *)
Abbreviation Header := (gmap string (list string)).

(** [http.Request]: the parsed query, [r.URL.Query()]. *)
Record Request := {
  Query : gmap string (list string)
}.

(** [url.Values.Get]: the first value of the key, or the empty string. *)
Definition Get (q : gmap string (list string)) (key : string) : string :=
  match q !! key with
  | Some (v :: _) => v
  | _ => ""
  end.

(** The server's [http.ResponseWriter]: the header map that the handler
    edits, the status and header once they are sent, the body written. *)
Record ResponseWriter := {
  header : Header;
  sent : option (nat * Header);
  written : string
}.

Definition newResponseWriter : ResponseWriter :=
  {| header := ∅; sent := None; written := "" |}.

(** [w.Header().Set(key, value)]. *)
Definition Set_ (key value : string) (w : ResponseWriter) : ResponseWriter :=
  {| header := <[key := [value]]> (header w);
     sent := sent w; written := written w |}.

(** [w.Header().Del(key)]. *)
Definition Del (key : string) (w : ResponseWriter) : ResponseWriter :=
  {| header := delete key (header w);
     sent := sent w; written := written w |}.

(** [w.WriteHeader(code)]: sends the status and the header as it is now;
    a second call has no effect. *)
Definition WriteHeader (code : nat) (w : ResponseWriter) : ResponseWriter :=
  match sent w with
  | Some _ => w
  | None => {| header := header w; sent := Some (code, header w);
               written := written w |}
  end.

(** [w.Write(data)]: sends the header with status 200 if it was not sent,
    then the data. *)
Definition Write (data : string) (w : ResponseWriter) : ResponseWriter :=
  let w := WriteHeader StatusOK w in
  {| header := header w; sent := sent w; written := written w +:+ data |}.

(** [http.Error]: it sets the content type, sends the header with the
    given status, and writes the message with [fmt.Fprintln], that is
    followed by a line feed. *)
Definition Error (w : ResponseWriter) (error : string) (code : nat)
  : ResponseWriter :=
  let w := Del "Content-Length" w in
  let w := Set_ "Content-Type" "text/plain; charset=utf-8" w in
  let w := Set_ "X-Content-Type-Options" "nosniff" w in
  let w := WriteHeader code w in
  Write (error +:+ LF) w.

(** What the client receives once the handler has returned: the server
    sends the header with status 200 if the handler did not. *)
Record Response := {
  Status : nat;
  ResponseHeader : Header;
  Body : string
}.

Definition finish (w : ResponseWriter) : Response :=
  match sent w with
  | Some (code, h) => {| Status := code; ResponseHeader := h; Body := written w |}
  | None => {| Status := StatusOK; ResponseHeader := header w; Body := written w |}
  end.

(** The header that the client receives if the handler stops at [w]. *)
Definition wire (w : ResponseWriter) : Header :=
  ResponseHeader (finish w).

End http.

(** ** package core: lifecycle *)

Module core.

Definition lifecycleLoggerName : string := "gomelon/lifecycle".

Section Lifecycle.
Context {W : Type}.

(** [Managed]: an object started and stopped with the application. *)
Record Managed := {
  Start : W -> option error * W;
  Stop : W -> option error * W
}.

Record LifecycleEnvironment := {
  managedObjects : list Managed
}.

Definition NewLifecycleEnvironment : LifecycleEnvironment :=
  {| managedObjects := [] |}.

Definition Manage (env : LifecycleEnvironment) (obj : Managed)
  : LifecycleEnvironment :=
  {| managedObjects := managedObjects env ++ [obj] |}.

(** [logger.Warn(format + "%v", err)] on the lifecycle logger. *)
Definition warnErr (prefix : string) (err : option error) : Exec W unit :=
  match err with
  | Some e => emit (EvLog lifecycleLoggerName LevelWarn (prefix +:+ Error e))
  | None => ret tt
  end.

(** One iteration of the loop of [onStarting], at index [i]. *)
Definition startAt (env : LifecycleEnvironment) (i : nat) : Exec W unit :=
  match managedObjects env !! i with
  | Some o =>
      err <- call (EvStart i) (Start o);;
      warnErr "error starting a managed object: " err
  | None => panic "index out of range"
  end.

(** [for i := range env.managedObjects]: [n] iterations from index [i]. *)
Fixpoint startLoop (env : LifecycleEnvironment) (i n : nat) : Exec W unit :=
  match n with
  | 0 => ret tt
  | S n' => startAt env i;;; startLoop env (S i) n'
  end.

Definition onStarting (env : LifecycleEnvironment) : Exec W unit :=
  startLoop env 0 (length (managedObjects env)).

Definition stopAt (env : LifecycleEnvironment) (i : nat) : Exec W unit :=
  match managedObjects env !! i with
  | Some o =>
      err <- call (EvStop i) (Stop o);;
      warnErr "error stopping a managed object: " err
  | None => panic "index out of range"
  end.

(** [for i := len - 1; i >= 0; i--]: the indices [n - 1] down to [0]. *)
Fixpoint stopLoop (env : LifecycleEnvironment) (n : nat) : Exec W unit :=
  match n with
  | 0 => ret tt
  | S i => stopAt env i;;; stopLoop env i
  end.

Definition onStopped (env : LifecycleEnvironment) : Exec W unit :=
  stopLoop env (length (managedObjects env)).

End Lifecycle.

Arguments Managed W : clear implicits.
Arguments LifecycleEnvironment W : clear implicits.

(** The two transitions of the lifecycle, to state what holds of both:
    the transition itself, the event of a call to object [i], the indices
    of the objects called, and the warning logged for an error. *)
Inductive Phase := Starting | Stopping.

Definition transition {W} (ph : Phase) (env : LifecycleEnvironment W)
  : Exec W unit :=
  match ph with
  | Starting => onStarting env
  | Stopping => onStopped env
  end.

Definition attempt (ph : Phase) (i : nat) (r : option error) : Event :=
  match ph with
  | Starting => EvStart i r
  | Stopping => EvStop i r
  end.

Definition attempted (ph : Phase) (t : list Event) : list nat :=
  match ph with
  | Starting => started t
  | Stopping => stopped t
  end.

Definition warningPrefix (ph : Phase) : string :=
  match ph with
  | Starting => "error starting a managed object: "
  | Stopping => "error stopping a managed object: "
  end.

Definition warning (ph : Phase) (e : error) : Event :=
  EvLog lifecycleLoggerName LevelWarn (warningPrefix ph +:+ Error e).

(** The events that [warnErr] adds for the result of a call. *)
Definition warnEvents (ph : Phase) (err : option error) : list Event :=
  match err with
  | Some e => [warning ph e]
  | None => []
  end.

(** A trace in which each failed call of the phase has its warning. *)
Definition warned (ph : Phase) (t : list Event) : Prop :=
  forall j e, attempt ph j (Some e) ∈ t -> warning ph e ∈ t.

(** The order in which a transition calls [n] objects. *)
Definition callOrder (ph : Phase) (n : nat) : list nat :=
  match ph with
  | Starting => seq 0 n
  | Stopping => reverse (seq 0 n)
  end.

(** The call that a transition makes on an object; the objects in the
    order of the transition; and the state in which the transition calls
    object [i], which is the state left by the calls on the objects that
    come before it in that order. *)
Definition act {W} (ph : Phase) (o : Managed W) : W -> option error * W :=
  match ph with
  | Starting => Start o
  | Stopping => Stop o
  end.

Definition inOrder {W} (ph : Phase) (objs : list (Managed W)) : list (Managed W) :=
  match ph with
  | Starting => objs
  | Stopping => reverse objs
  end.

Definition stateAt {W} (ph : Phase) (objs : list (Managed W)) (i : nat) (w : W)
  : W :=
  foldl (fun w o => (act ph o w).2) w
    (match ph with
     | Starting => take i objs
     | Stopping => reverse (drop (S i) objs)
     end).

(** The environment after [Manage] has been called on each of [objs]. *)
Definition registered {W} (objs : list (Managed W)) : LifecycleEnvironment W :=
  foldl Manage NewLifecycleEnvironment objs.

(** ** package core: bundles, commands and the bootstrap *)

Section Bootstrap.
(** [W] is the process state; [Cfg] and [Env] stand for the values
    behind [*Configuration] and [*Environment], which [Bootstrap.Run]
    only passes on; [AppCfg] is what [app.Configuration()] returns. *)
Context {W Cfg Env AppCfg : Type}.

(** [Command]. [Name()] and [Description()] are taken to be pure.
    [Run(bootstrap)] receives the bootstrap's [Arguments]; the rest of
    the bootstrap is reachable to the command through [W]. *)
Record Command := {
  Name : string;
  Description : string;
  cmdRun : list string -> W -> option error * W
}.

(** What [Initialize(bootstrap)] is given and what it leaves behind. It is
    given a pointer to the bootstrap, whose lists of bundles and commands
    code outside the package can only extend, with [AddBundle] and
    [AddCommand]. [Seen] is what it finds: the exported fields and the
    commands registered so far. [Initialized] is what it leaves: the
    exported fields as they are when it returns, and the bundles and the
    commands that have been added to the bootstrap while it ran, in the
    order of their addition (a bundle added by a call of [AddBundle]
    during [Initialize] has been initialized within that call, and what
    it added itself comes before it). The bundles registered so far,
    which [Bundles()] would return, are not among what is found. *)
Record Seen := {
  seenArguments : list string;
  seenConfigurationFactory : option AppCfg;
  seenValidatorFactory : bool;
  seenCommands : list Command
}.

Record Initialized (B : Type) := {
  leftArguments : list string;
  leftConfigurationFactory : option AppCfg;
  leftValidatorFactory : bool;
  addedBundles : list B;
  addedCommands : list Command
}.
Arguments leftArguments {B} _.
Arguments leftConfigurationFactory {B} _.
Arguments leftValidatorFactory {B} _.
Arguments addedBundles {B} _.
Arguments addedCommands {B} _.

(** [Bundle]. *)
#[local] Unset Elimination Schemes.
Inductive Bundle := mkBundle {
  Initialize : Seen -> W -> Initialized Bundle * W;
  bundleRun : Cfg -> Env -> W -> option error * W
}.
#[local] Set Elimination Schemes.

(** [Bootstrap], with the fields that the code below reads or writes
    ([Application] and [ServerFactory] are only stored). *)
Record Bootstrap := {
  Arguments : list string;
  ConfigurationFactory : option AppCfg;
  ValidatorFactory : bool;
  bundles : list Bundle;
  commands : list Command
}.

Definition NewBootstrap : Bootstrap :=
  {| Arguments := []; ConfigurationFactory := None;
     ValidatorFactory := false; bundles := []; commands := [] |}.

Definition Bundles (b : Bootstrap) : list Bundle := bundles b.

Definition Commands (b : Bootstrap) : list Command := commands b.

Definition AddCommand (b : Bootstrap) (c : Command) : Bootstrap :=
  {| Arguments := Arguments b;
     ConfigurationFactory := ConfigurationFactory b;
     ValidatorFactory := ValidatorFactory b;
     bundles := bundles b;
     commands := commands b ++ [c] |}.

(** What a bundle finds in the bootstrap. *)
Definition seen (b : Bootstrap) : Seen :=
  {| seenArguments := Arguments b;
     seenConfigurationFactory := ConfigurationFactory b;
     seenValidatorFactory := ValidatorFactory b;
     seenCommands := commands b |}.

(** [AddBundle]: the bundle is initialized, which may add to the bootstrap,
    and then appended to the bundles as they are after that. *)
Definition AddBundle (b : Bootstrap) (bundle : Bundle) : Exec W Bootstrap :=
  left <- call (fun _ => EvBundleInitialize) (Initialize bundle (seen b));;
  ret {| Arguments := leftArguments left;
         ConfigurationFactory := leftConfigurationFactory left;
         ValidatorFactory := leftValidatorFactory left;
         bundles := (bundles b ++ addedBundles left) ++ [bundle];
         commands := commands b ++ addedCommands left |}.

(** The state after the bundles [bs] have run, one after the other. *)
Definition ran (configuration : Cfg) (environment : Env) (bs : list Bundle)
    (w : W) : W :=
  foldl (fun w bundle => (bundleRun bundle configuration environment w).2) w bs.

(** The loop of [Bootstrap.Run] over the bundles that remain, [i] being
    the index of the first of them. *)
Fixpoint runFrom (i : nat) (bs : list Bundle) (configuration : Cfg)
    (environment : Env) : Exec W (option error) :=
  match bs with
  | [] => ret None
  | bundle :: rest =>
      err <- call (EvBundleRun i) (bundleRun bundle configuration environment);;
      match err with
      | Some e => ret (Some e)
      | None => runFrom (S i) rest configuration environment
      end
  end.

(** [Bootstrap.Run]. *)
Definition BootstrapRun (bootstrap : Bootstrap) (configuration : Cfg)
    (environment : Env) : Exec W (option error) :=
  runFrom 0 (bundles bootstrap) configuration environment.

(** [Application], as far as [gomelon.Run] uses it. *)
Record Application := {
  appConfiguration : W -> AppCfg * W;
  appInitialize : Bootstrap -> W -> Bootstrap * W
}.

End Bootstrap.

Arguments Command W : clear implicits.
Arguments Seen W AppCfg : clear implicits.
Arguments Initialized W AppCfg B : clear implicits.
Arguments leftArguments {W AppCfg B} _.
Arguments leftConfigurationFactory {W AppCfg B} _.
Arguments leftValidatorFactory {W AppCfg B} _.
Arguments addedBundles {W AppCfg B} _.
Arguments addedCommands {W AppCfg B} _.
Arguments Bundle W Cfg Env AppCfg : clear implicits.
Arguments Bootstrap W Cfg Env AppCfg : clear implicits.
Arguments Application W Cfg Env AppCfg : clear implicits.

End core.

(** ** package core: the admin environment, its handlers and tasks *)

Module admin.
Import http.

Definition metricsUri : string := "/metrics".
Definition pingUri : string := "/ping".
Definition runtimeUri : string := "/runtime".
Definition healthCheckUri : string := "/healthcheck".
Definition tasksUri : string := "/tasks".
Definition gcTaskName : string := "gc".
Definition logTaskName : string := "log".

Definition cacheControl : string := "must-revalidate,no-cache,no-store".

(** [health.Result]. *)
Record Result := {
  Healthy : bool;
  Message : string;
  Cause : option error
}.

(** [runtime.MemStats], the fields that the runtime handler prints. *)
Record MemStats := {
  Alloc : N; TotalAlloc : N; Sys : N; Lookups : N; Mallocs : N; Frees : N;
  HeapAlloc : N; HeapSys : N; HeapIdle : N; HeapInuse : N;
  HeapReleased : N; HeapObjects : N;
  StackInuse : N; StackSys : N; MSpanInuse : N; MSpanSys : N;
  MCacheInuse : N; MCacheSys : N; BuckHashSys : N; GCSys : N; OtherSys : N;
  NextGC : N; LastGC : N; PauseTotalNs : N; NumGC : N;
  EnableGC : bool; DebugGC : bool
}.

(** What package [runtime] reports, and the number of collections that
    [runtime.GC()] has been asked for. *)
Record Runtime := {
  NumCPU : Z;
  NumCgoCall : Z;
  NumGoroutine : Z;
  ReadMemStats : MemStats;
  Version : string;
  collections : nat
}.

Definition GC (rt : Runtime) : Runtime :=
  {| NumCPU := NumCPU rt; NumCgoCall := NumCgoCall rt;
     NumGoroutine := NumGoroutine rt; ReadMemStats := ReadMemStats rt;
     Version := Version rt; collections := S (collections rt) |}.

(** The state of the process that the handlers read and change: the
    loggers, what [registry.RunHealthChecks()] returns, the published
    variables in the order of [expvar.Do] (key, and the [String()] of the
    value), and the runtime. *)
Record Process := {
  loggers : gol.Loggers;
  RunHealthChecks : gmap string Result;
  expvars : list (string * string);
  runtime : Runtime
}.

Definition withLoggers (p : Process) (g : gol.Loggers) : Process :=
  {| loggers := g; RunHealthChecks := RunHealthChecks p;
     expvars := expvars p; runtime := runtime p |}.

Definition withRuntime (p : Process) (rt : Runtime) : Process :=
  {| loggers := loggers p; RunHealthChecks := RunHealthChecks p;
     expvars := expvars p; runtime := rt |}.

(** [ServeHTTP(w, r)] of an [http.Handler]. *)
Definition Handler : Type :=
  ResponseWriter -> Request -> Process -> ResponseWriter * Process.

Record AdminHandler := {
  Path : string;
  Name : string;
  ServeHTTP : Handler
}.

Record Task := {
  TaskName : string;
  TaskServeHTTP : Handler
}.

Record AdminEnvironment := {
  handlers : list AdminHandler;
  tasks : list Task
}.

Definition AddTask (env : AdminEnvironment) (task : list Task)
  : AdminEnvironment :=
  {| handlers := handlers env; tasks := tasks env ++ task |}.

Definition AddHandler (env : AdminEnvironment) (handler : list AdminHandler)
  : AdminEnvironment :=
  {| handlers := handlers env ++ handler; tasks := tasks env |}.

(** The verb [%t]. *)
Definition fmt_t (b : bool) : string := if b then "true" else "false".

(** [fmt.Fprintf(w, ...)] with the formatted text. *)
Definition Fprintf (w : ResponseWriter) (text : string) : ResponseWriter :=
  Write text w.

(** *** The home page *)

Definition adminHTML (items : string) : string :=
  "<!DOCTYPE html>" +:+ LF +:+
  "<html>" +:+ LF +:+
  "<head>" +:+ LF +:+
  TAB +:+ "<title>Operational Menu</title>" +:+ LF +:+
  "</head>" +:+ LF +:+
  "<body>" +:+ LF +:+
  TAB +:+ "<h1>Operational Menu</h1>" +:+ LF +:+
  TAB +:+ "<ul>" +:+ items +:+ "</ul>" +:+ LF +:+
  "</body>" +:+ LF +:+
  "</html>" +:+ LF.

Fixpoint homeItems (contextPath : string) (hs : list AdminHandler) : string :=
  match hs with
  | [] => ""
  | h :: rest =>
      ("<li><a href=" +:+ DQUOTE +:+ contextPath +:+ Path h +:+ DQUOTE +:+ ">"
         +:+ Name h +:+ "</a></li>")
      +:+ homeItems contextPath rest
  end.

(** [adminHomeHandler.ServeHTTP]. *)
Definition adminHomeHandler (hs : list AdminHandler) (contextPath : string)
  : Handler := fun w r p =>
  let buf := homeItems contextPath hs in
  let w := Set_ "Cache-Control" cacheControl w in
  let w := Set_ "Content-Type" "text/html" w in
  (Fprintf w (adminHTML buf), p).

(** *** The ping handler *)

Definition pingHandler_ServeHTTP : Handler := fun w r p =>
  let w := Set_ "Cache-Control" cacheControl w in
  let w := Set_ "Content-Type" "text/plain" w in
  (Write ("pong" +:+ LF) w, p).

Definition pingHandler : AdminHandler :=
  {| Path := pingUri; Name := "Ping"; ServeHTTP := pingHandler_ServeHTTP |}.

(** *** The runtime handler *)

Definition dN (label : string) (n : N) : string :=
  label +:+ ": " +:+ pretty n +:+ LF.

Definition dZ (label : string) (n : Z) : string :=
  label +:+ ": " +:+ pretty n +:+ LF.

Definition tN (label : string) (n : N) : string := TAB +:+ dN label n.

Definition tB (label : string) (b : bool) : string :=
  TAB +:+ label +:+ ": " +:+ fmt_t b +:+ LF.

Definition runtimeHandler_ServeHTTP : Handler := fun w r p =>
  let w := Set_ "Cache-Control" cacheControl w in
  let w := Set_ "Content-Type" "text/plain" w in
  let rt := runtime p in
  let w := Fprintf w (dZ "NumCPU" (NumCPU rt) +:+ dZ "NumCgoCall" (NumCgoCall rt)
                      +:+ dZ "NumGoroutine" (NumGoroutine rt)) in
  let m := ReadMemStats rt in
  let w := Fprintf w ("MemStats:" +:+ LF +:+ tN "Alloc" (Alloc m)
             +:+ tN "TotalAlloc" (TotalAlloc m) +:+ tN "Sys" (Sys m)
             +:+ tN "Lookups" (Lookups m) +:+ tN "Mallocs" (Mallocs m)
             +:+ tN "Frees" (Frees m)) in
  let w := Fprintf w (tN "HeapAlloc" (HeapAlloc m) +:+ tN "HeapSys" (HeapSys m)
             +:+ tN "HeapIdle" (HeapIdle m) +:+ tN "HeapInuse" (HeapInuse m)
             +:+ tN "HeapReleased" (HeapReleased m)
             +:+ tN "HeapObjects" (HeapObjects m)) in
  let w := Fprintf w (tN "StackInuse" (StackInuse m) +:+ tN "StackSys" (StackSys m)
             +:+ tN "MSpanInuse" (MSpanInuse m) +:+ tN "MSpanSys" (MSpanSys m)
             +:+ tN "MCacheInuse" (MCacheInuse m) +:+ tN "MCacheSys" (MCacheSys m)
             +:+ tN "BuckHashSys" (BuckHashSys m) +:+ tN "GCSys" (GCSys m)
             +:+ tN "OtherSys" (OtherSys m)) in
  let w := Fprintf w (tN "NextGC" (NextGC m) +:+ tN "LastGC" (LastGC m)
             +:+ tN "PauseTotalNs" (PauseTotalNs m) +:+ tN "NumGC" (NumGC m)
             +:+ tB "EnableGC" (EnableGC m) +:+ tB "DebugGC" (DebugGC m)) in
  (Fprintf w ("Version: " +:+ Version rt +:+ LF), p).

Definition runtimeHandler : AdminHandler :=
  {| Path := runtimeUri; Name := "Runtime";
     ServeHTTP := runtimeHandler_ServeHTTP |}.

(** *** The tasks *)

Definition gcTask_ServeHTTP : Handler := fun w r p =>
  let w := Write ("Running GC..." +:+ LF) w in
  let p := withRuntime p (GC (runtime p)) in
  (Write ("Done!" +:+ LF) w, p).

Definition gcTask : Task :=
  {| TaskName := gcTaskName; TaskServeHTTP := gcTask_ServeHTTP |}.

Definition logLevels : list Level :=
  [LevelAll; LevelTrace; LevelDebug; LevelInfo; LevelWarn; LevelError; LevelOff].

Fixpoint parseIn (ls : list Level) (level : string) : Level * bool :=
  match ls with
  | [] => (LevelOff, false)
  | l :: rest =>
      if EqualFold level (LevelString l) then (l, true) else parseIn rest level
  end.

(** [parseLogLevel]. *)
Definition parseLogLevel (level : string) : Level * bool :=
  parseIn logLevels level.

(** The first loop of the log task: the level of each default logger is set. *)
Fixpoint setLevels (names : list string) (logLevel : Level) (g : gol.Loggers)
  : gol.Loggers :=
  match names with
  | [] => g
  | name :: rest =>
      let '(logger, g) := gol.GetLogger name g in
      let g := match logger with
               | gol.DefaultLogger _ => gol.SetLevel name logLevel g
               | gol.OtherLogger => g
               end in
      setLevels rest logLevel g
  end.

(** The second loop of the log task: a line for each default logger. *)
Fixpoint printLevels (names : list string) (w : ResponseWriter)
    (g : gol.Loggers) : ResponseWriter * gol.Loggers :=
  match names with
  | [] => (w, g)
  | name :: rest =>
      let '(logger, g) := gol.GetLogger name g in
      let w := match logger with
               | gol.DefaultLogger level =>
                   Fprintf w (name +:+ ": " +:+ LevelString level +:+ LF)
               | gol.OtherLogger => w
               end in
      printLevels rest w g
  end.

Definition logTask_ServeHTTP : Handler := fun w r p =>
  let query := Query r in
  match query !! "logger" with
  | None | Some [] => (w, p)
  | Some loggerNames =>
      let level := Get query "level" in
      let applied : ResponseWriter + gol.Loggers :=
        if decide (level = "") then inr (loggers p)
        else
          let '(logLevel, ok) := parseLogLevel level in
          if ok then inr (setLevels loggerNames logLevel (loggers p))
          else inl (http.Error w "Level is not supported" StatusBadRequest) in
      match applied with
      | inl w => (w, p)
      | inr g =>
          let '(w, g) := printLevels loggerNames w g in
          (w, withLoggers p g)
      end
  end.

Definition logTask : Task :=
  {| TaskName := logTaskName; TaskServeHTTP := logTask_ServeHTTP |}.

Section MapOrder.
(** Go ranges over a map in an order of its own choosing, which may
    differ from one [range] statement to the next: [rangeFirst] is the
    order of the loop of [isAllHealthy], [rangeSecond] that of the loop
    of the health check handler. [Quote] is the verb [%q]. *)
Variables rangeFirst rangeSecond : gmap string Result -> list (string * Result).
Variable Quote : string -> string.

(** *** The health check handler *)

Fixpoint allHealthy (rs : list (string * Result)) : bool :=
  match rs with
  | [] => true
  | (_, result) :: rest => if negb (Healthy result) then false else allHealthy rest
  end.

(** [isAllHealthy]. *)
Definition isAllHealthy (results : gmap string Result) : bool :=
  allHealthy (rangeFirst results).

(** What the handler writes for one check. *)
Definition writeResult (name : string) (result : Result) (w : ResponseWriter)
  : ResponseWriter :=
  let w := Fprintf w (name +:+ ":" +:+ LF +:+ TAB +:+ "Healthy: "
                      +:+ fmt_t (Healthy result) +:+ LF) in
  let w := if decide (Message result = "") then w
           else Fprintf w (TAB +:+ "Message: " +:+ Message result +:+ LF) in
  match Cause result with
  | Some cause => Fprintf w (TAB +:+ "Cause: " +:+ errors.Error cause +:+ LF)
  | None => w
  end.

Fixpoint writeResults (rs : list (string * Result)) (w : ResponseWriter)
  : ResponseWriter :=
  match rs with
  | [] => w
  | (name, result) :: rest => writeResults rest (writeResult name result w)
  end.

Definition healthCheckHandler_ServeHTTP : Handler := fun w r p =>
  let w := Set_ "Cache-Control" cacheControl w in
  let w := Set_ "Content-Type" "text/plain" w in
  let results := RunHealthChecks p in
  if Nat.eqb (size results) 0 then
    let w := WriteHeader StatusNotImplemented w in
    (Write "No health checks registered." w, p)
  else
    let w := if negb (isAllHealthy results)
             then WriteHeader StatusInternalServerError w else w in
    (writeResults (rangeSecond results) w, p).

Definition healthCheckHandler : AdminHandler :=
  {| Path := healthCheckUri; Name := "Healthcheck";
     ServeHTTP := healthCheckHandler_ServeHTTP |}.

(** *** The metrics handler *)

Fixpoint writeVars (first : bool) (kvs : list (string * string))
    (w : ResponseWriter) : ResponseWriter :=
  match kvs with
  | [] => w
  | (key, value) :: rest =>
      let w := if negb first then Fprintf w "," else w in
      writeVars false rest (Fprintf w (Quote key +:+ ": " +:+ value))
  end.

Definition metricsHandler_ServeHTTP : Handler := fun w r p =>
  let w := Set_ "Cache-Control" cacheControl w in
  let w := Set_ "Content-Type" "application/json" w in
  let w := Fprintf w "{" in
  let w := writeVars true (expvars p) w in
  (Fprintf w "}", p).

Definition metricsHandler : AdminHandler :=
  {| Path := metricsUri; Name := "Metrics";
     ServeHTTP := metricsHandler_ServeHTTP |}.

(** *** The environment with its default handlers and tasks *)

Definition NewAdminEnvironment : AdminEnvironment :=
  let env := {| handlers := []; tasks := [] |} in
  let env := AddHandler env
    [metricsHandler; pingHandler; runtimeHandler; healthCheckHandler] in
  AddTask env [gcTask; logTask].

End MapOrder.

(** The response to request [r] of handler [h] in state [p]. *)
Definition respond (h : Handler) (r : Request) (p : Process) : Response :=
  finish (fst (h newResponseWriter r p)).

(** The state in which handler [h] leaves the process. *)
Definition after (h : Handler) (r : Request) (p : Process) : Process :=
  snd (h newResponseWriter r p).

(** A response that carries the header
    [Cache-Control: must-revalidate,no-cache,no-store]. *)
Definition carriesCacheControl (resp : Response) : Prop :=
  ResponseHeader resp !! "Cache-Control" = Some [cacheControl].

(** [body] has [part] as a contiguous part. *)
Definition contains (body part : string) : Prop :=
  exists before behind, body = before +:+ part +:+ behind.

(** The lines of the health report for one check: name and health, then
    the message if there is one, then the cause if there is one. *)
Definition report (name : string) (result : Result) : string :=
  name +:+ ":" +:+ LF +:+ TAB +:+ "Healthy: " +:+ fmt_t (Healthy result) +:+ LF
  +:+ (if decide (Message result = "") then ""
       else TAB +:+ "Message: " +:+ Message result +:+ LF)
  +:+ (match Cause result with
       | Some cause => TAB +:+ "Cause: " +:+ errors.Error cause +:+ LF
       | None => ""
       end).

(** A level text that matches, up to the case of its letters, the name of
    one of the levels. *)
Definition supported (level : string) : Prop :=
  exists l, ToUpper level = ToUpper (LevelString l).

(** *** The starting transition

    [ServerHandler] is the server's router: the path prefix that it
    reports, and the routes that [Handle] has been given, in the order of
    the calls. *)
Definition adminLoggerName : string := "gomelon.admin".

Definition noHealthChecksWarning : string :=
  LF +:+ "!!!!!!!!!!!!!!!!!!!!!!!!!!!!!!!!!!!!!!!!!!!!!!!" +:+ LF
  +:+ "!    THIS APPLICATION HAS NO HEALTHCHECKS.    !" +:+ LF
  +:+ "!!!!!!!!!!!!!!!!!!!!!!!!!!!!!!!!!!!!!!!!!!!!!!!" +:+ LF.

Record Route := {
  method : string;
  path : string;
  handler : Handler
}.

Record ServerHandler := {
  PathPrefix : string;
  routes : list Route
}.

(** [ServerHandler.Handle(method, path, handler)]. *)
Definition Handle (method path : string) (h : Handler)
  : Exec ServerHandler unit :=
  fun server =>
    mkRan (Ok tt)
      {| PathPrefix := PathPrefix server;
         routes := routes server
                   ++ [{| method := method; path := path; handler := h |}] |}
      [].

(** A read of the state, as in [env.ServerHandler.PathPrefix()]. *)
Definition gets {W A} (f : W -> A) : Exec W A :=
  fun w => mkRan (Ok (f w)) w [].

(** The verb [%-7s]: the text, filled up with spaces to seven characters. *)
Definition fmt_s7 (text : string) : string :=
  text +:+ String.concat "" (replicate (7 - String.length text) " ").

(** The verb [%v] on a slice of strings. *)
Definition fmt_v (names : list string) : string :=
  "[" +:+ String.concat " " names +:+ "]".

Section Starting.
(** [typeName] is the verb [%T] on a task, the name of its Go type;
    [names] is what [env.HealthChecks.Names()] returns. *)
Variable typeName : Task -> string.

Fixpoint handleHandlers (hs : list AdminHandler) : Exec ServerHandler unit :=
  match hs with
  | [] => ret tt
  | h :: rest => Handle "GET" (Path h) (ServeHTTP h);;; handleHandlers rest
  end.

Fixpoint handleTasks (ts : list Task) : Exec ServerHandler unit :=
  match ts with
  | [] => ret tt
  | task :: rest =>
      let path := tasksUri +:+ "/" +:+ TaskName task in
      Handle "POST" path (TaskServeHTTP task);;; handleTasks rest
  end.

(** The buffer that [logTasks] fills, a line for each task. *)
Fixpoint taskLines (prefix : string) (ts : list Task) : string :=
  match ts with
  | [] => ""
  | task :: rest =>
      ("    " +:+ fmt_s7 "POST" +:+ " " +:+ prefix +:+ tasksUri +:+ "/"
         +:+ TaskName task +:+ " (" +:+ typeName task +:+ ")" +:+ LF)
      +:+ taskLines prefix rest
  end.

(** [logTasks]. *)
Definition logTasks (env : AdminEnvironment) : Exec ServerHandler unit :=
  prefix <- gets PathPrefix;;
  emit (EvLog adminLoggerName LevelInfo
          ("tasks =" +:+ LF +:+ LF +:+ taskLines prefix (tasks env))).

(** [logHealthChecks]. *)
Definition logHealthChecks (names : list string) : Exec ServerHandler unit :=
  (if Nat.leb (length names) 0
   then emit (EvLog adminLoggerName LevelWarn noHealthChecksWarning)
   else ret tt);;;
  emit (EvLog adminLoggerName LevelDebug ("health checks = " +:+ fmt_v names)).

(** [AdminEnvironment.onStarting]. *)
Definition onStarting (env : AdminEnvironment) (names : list string)
  : Exec ServerHandler unit :=
  prefix <- gets PathPrefix;;
  Handle "GET" "/" (adminHomeHandler (handlers env) prefix);;;
  handleHandlers (handlers env);;;
  handleTasks (tasks env);;;
  logTasks env;;;
  logHealthChecks names.

(** [AdminEnvironment.onStopped]. *)
Definition onStopped (env : AdminEnvironment) : Exec ServerHandler unit :=
  ret tt.

End Starting.

(** The routes that [onStarting] adds for an environment: the home page,
    then the handlers, then the tasks. *)
Definition routesOf (prefix : string) (env : AdminEnvironment) : list Route :=
  {| method := "GET"; path := "/";
     handler := adminHomeHandler (handlers env) prefix |}
  :: ((fun h => {| method := "GET"; path := Path h; handler := ServeHTTP h |})
        <$> handlers env)
  ++ ((fun t => {| method := "POST"; path := tasksUri +:+ "/" +:+ TaskName t;
                   handler := TaskServeHTTP t |})
        <$> tasks env).

(** The item of the home page for a handler. *)
Definition homeItem (contextPath : string) (h : AdminHandler) : string :=
  "<li><a href=" +:+ DQUOTE +:+ contextPath +:+ Path h +:+ DQUOTE +:+ ">"
  +:+ Name h +:+ "</a></li>".

(** The line of the level report for a logger, empty for a logger that is
    not a default logger. *)
Definition levelLine (g : gol.Loggers) (name : string) : string :=
  match gol.currentLevel g name with
  | Some level => name +:+ ": " +:+ LevelString level +:+ LF
  | None => ""
  end.

(** Texts one after the other. *)
Definition concatAll (texts : list string) : string := String.concat "" texts.

End admin.

(** ** package gomelon

    From [gomelon.go]. The sources hold a second revision of that file,
    whose [Run] is the same and whose [printHelp] lays each line out as
    name, colon and description. *)

Module gomelon.
Import core.

Section Run.
Context {W Cfg Env AppCfg : Type}.

Abbreviation Command := (Command W).
Abbreviation Bootstrap := (Bootstrap W Cfg Env AppCfg).
Abbreviation Application := (Application W Cfg Env AppCfg).

(** The builtin [println] writes its operands separated by spaces. *)
Definition println (operands : list string) : Exec W unit :=
  emit (EvPrintln (String.concat " " operands)).

Fixpoint printCommands (cs : list Command) : Exec W unit :=
  match cs with
  | [] => ret tt
  | command :: rest =>
      println ["   "; Name command; TAB; Description command];;;
      printCommands rest
  end.

Definition printHelp (bootstrap : Bootstrap) : Exec W unit :=
  println ["Available commands:"];;;
  printCommands (Commands bootstrap).

(** The loop of [Run] over the commands that remain, [i] being the index
    of the first of them; [None] when the loop ends without a match. *)
Fixpoint findCommand (i : nat) (cs : list Command) (bootstrap : Bootstrap)
    (arg0 : string) : Exec W (option (option error)) :=
  match cs with
  | [] => ret None
  | command :: rest =>
      if decide (Name command = arg0)
      then r <- call (EvCommandRun i) (cmdRun command (Arguments bootstrap));;
           ret (Some r)
      else findCommand (S i) rest bootstrap arg0
  end.

(** The first lines of [Run]: the bootstrap handed to the commands. *)
Definition initBootstrap (app : Application) (args : list string)
    : Exec W Bootstrap :=
  let bootstrap : Bootstrap := NewBootstrap in
  cfg <- call (fun _ => EvAppConfiguration) (appConfiguration app);;
  let bootstrap :=
    {| Arguments := args;
       ConfigurationFactory := Some cfg;
       ValidatorFactory := true;
       bundles := bundles bootstrap;
       commands := commands bootstrap |} in
  call (fun _ => EvAppInitialize) (appInitialize app bootstrap).

(** [Run]. *)
Definition Run (app : Application) (args : list string)
    : Exec W (option error) :=
  bootstrap <- initBootstrap app args;;
  found <- match args with
           | arg0 :: _ => findCommand 0 (Commands bootstrap) bootstrap arg0
           | [] => ret None
           end;;
  match found with
  | Some r => ret r
  | None => printHelp bootstrap;;; ret None
  end.

(** The lines of the catalogue: for each command its name and its
    description, as [printHelp] passes them to [println]. *)
Definition catalogue (cs : list Command) : list string :=
  (fun c => String.concat " " ["   "; Name c; TAB; Description c]) <$> cs.

(** The command that an argument list selects among [cs]: the first one,
    at index [i], whose name is the first argument; none when there is no
    argument or no command of that name. *)
Inductive Selection (cs : list Command) : list string -> option (nat * Command) -> Prop :=
| selected arg0 rest pre c post :
    cs = pre ++ c :: post ->
    Name c = arg0 ->
    Forall (fun c' => Name c' <> arg0) pre ->
    Selection cs (arg0 :: rest) (Some (length pre, c))
| no_argument :
    Selection cs [] None
| no_match arg0 rest :
    Forall (fun c' => Name c' <> arg0) cs ->
    Selection cs (arg0 :: rest) None.

End Run.

End gomelon.

(** ** package gomelon, the second revision of the file

    Its [printHelp] passes name, colon and description to [println]; its
    [Run] differs in nothing that is modelled. *)

Module gomelon2.
Import core.

Section Run.
Context {W Cfg Env AppCfg : Type}.

Fixpoint printCommands (cs : list (Command W)) : Exec W unit :=
  match cs with
  | [] => ret tt
  | command :: rest =>
      gomelon.println [Name command; ":"; Description command];;;
      printCommands rest
  end.

Definition printHelp (bootstrap : Bootstrap W Cfg Env AppCfg) : Exec W unit :=
  gomelon.println ["Available commands:"];;;
  printCommands (Commands bootstrap).

Definition Run (app : Application W Cfg Env AppCfg) (args : list string)
    : Exec W (option error) :=
  bootstrap <- gomelon.initBootstrap app args;;
  found <- match args with
           | arg0 :: _ =>
               gomelon.findCommand 0 (Commands bootstrap) bootstrap arg0
           | [] => ret None
           end;;
  match found with
  | Some r => ret r
  | None => printHelp bootstrap;;; ret None
  end.

End Run.

End gomelon2.

(** ** Sample data *)

Module sample.

(** Managed objects over a state that counts the calls made; the second
    of them fails both to start and to stop. *)
Definition steady : core.Managed nat :=
  {| core.Start := fun n => (None, S n); core.Stop := fun n => (None, S n) |}.

Definition broken : core.Managed nat :=
  {| core.Start := fun n => (Some (errors.New "no start"), S n);
     core.Stop := fun n => (Some (errors.New "no stop"), S n) |}.

(** Bundles over the same state. The first adds nothing to the bootstrap;
    the second fails to run; the third registers the first while it is
    initialized. *)
Definition nothingAdded (found : core.Seen nat unit)
    (bs : list (core.Bundle nat unit unit unit))
  : core.Initialized nat unit (core.Bundle nat unit unit unit) :=
  {| core.leftArguments := core.seenArguments found;
     core.leftConfigurationFactory := core.seenConfigurationFactory found;
     core.leftValidatorFactory := core.seenValidatorFactory found;
     core.addedBundles := bs;
     core.addedCommands := [] |}.

Definition assets : core.Bundle nat unit unit unit :=
  {| core.Initialize := fun found n => (nothingAdded found [], n);
     core.bundleRun := fun _ _ n => (None, S n) |}.

Definition failing : core.Bundle nat unit unit unit :=
  {| core.Initialize := fun found n => (nothingAdded found [], n);
     core.bundleRun := fun _ _ n => (Some (errors.New "no database"), S n) |}.

Definition nesting : core.Bundle nat unit unit unit :=
  {| core.Initialize := fun found n => (nothingAdded found [assets], S n);
     core.bundleRun := fun _ _ n => (None, n + 10) |}.

(** A bootstrap with the failing bundle, and the bootstrap after the
    third bundle has been added to it. *)
Definition oneBundle : core.Bootstrap nat unit unit unit :=
  {| core.Arguments := []; core.ConfigurationFactory := None;
     core.ValidatorFactory := false;
     core.bundles := [failing]; core.commands := [] |}.

Definition threeBundles : core.Bootstrap nat unit unit unit :=
  {| core.Arguments := []; core.ConfigurationFactory := None;
     core.ValidatorFactory := false;
     core.bundles := [failing; assets; nesting]; core.commands := [] |}.

(** Commands and an application that registers them. *)
Definition serve : core.Command nat :=
  {| core.Name := "server"; core.Description := "runs the server";
     core.cmdRun := fun _ n => (None, n + 10) |}.

Definition check : core.Command nat :=
  {| core.Name := "check"; core.Description := "checks the configuration";
     core.cmdRun := fun _ n => (Some (errors.New "bad configuration"), n + 20) |}.

Definition app : core.Application nat unit unit unit :=
  {| core.appConfiguration := fun n => (tt, S n);
     core.appInitialize := fun b n =>
       (core.AddCommand (core.AddCommand b serve) check, S n) |}.

(** A process with two health checks, one logger of another
    implementation, default loggers at level INFO otherwise. *)
Definition process : admin.Process :=
  {| admin.loggers :=
       {| gol.existing := {[ "foreign" := gol.OtherLogger ]};
          gol.fresh := fun _ => gol.DefaultLogger LevelInfo |};
     admin.RunHealthChecks :=
       {[ "A" := {| admin.Healthy := true; admin.Message := "";
                    admin.Cause := None |};
          "B" := {| admin.Healthy := false; admin.Message := "down";
                    admin.Cause := Some (errors.New "timeout") |} ]};
     admin.expvars := [("cmdline", "[]")];
     admin.runtime :=
       {| admin.NumCPU := 4; admin.NumCgoCall := 0; admin.NumGoroutine := 7;
          admin.ReadMemStats :=
            {| admin.Alloc := 1; admin.TotalAlloc := 2; admin.Sys := 3;
               admin.Lookups := 0; admin.Mallocs := 5; admin.Frees := 4;
               admin.HeapAlloc := 1; admin.HeapSys := 2; admin.HeapIdle := 1;
               admin.HeapInuse := 1; admin.HeapReleased := 0;
               admin.HeapObjects := 1; admin.StackInuse := 1;
               admin.StackSys := 1; admin.MSpanInuse := 1; admin.MSpanSys := 1;
               admin.MCacheInuse := 1; admin.MCacheSys := 1;
               admin.BuckHashSys := 1; admin.GCSys := 1; admin.OtherSys := 1;
               admin.NextGC := 9; admin.LastGC := 8; admin.PauseTotalNs := 6;
               admin.NumGC := 2; admin.EnableGC := true;
               admin.DebugGC := false |};
          admin.Version := "go1.4";
          admin.collections := 0 |} |}.

(** Requests to the log task. *)
Definition request (query : list (string * list string)) : http.Request :=
  {| http.Query := list_to_map query |}.

Definition noQuery : http.Request := request [].

Definition bogusLevel : http.Request :=
  request [("logger", ["x"]); ("level", ["bogus"])].


Definition readLevel : http.Request := request [("logger", ["x"])].

Definition emptyLevel : http.Request :=
  request [("logger", ["x"]); ("level", [""])].

(** The order of Go's map iteration, here that of [map_to_list], and the
    verb [%q] on keys that need no escape. *)
Definition range : gmap string admin.Result -> list (string * admin.Result) :=
  map_to_list.

Definition quote (key : string) : string := DQUOTE +:+ key +:+ DQUOTE.

(** Another order of iteration, and a router with a prefix. *)
Definition rangeBack : gmap string admin.Result -> list (string * admin.Result) :=
  fun m => reverse (map_to_list m).

Definition router : admin.ServerHandler :=
  {| admin.PathPrefix := "/admin"; admin.routes := [] |}.

Definition env : admin.AdminEnvironment :=
  admin.NewAdminEnvironment range range quote.

End sample.

(** * Properties *)

(** ** Strings *)

Lemma string_app_assoc (a b c : string) : (a +:+ b) +:+ c = a +:+ (b +:+ c).
Proof.
  induction a as [|x a IH]; [reflexivity|].
  change (String x ((a +:+ b) +:+ c) = String x (a +:+ (b +:+ c))).
  by rewrite IH.
Qed.

Lemma string_app_nil_r (a : string) : a +:+ "" = a.
Proof.
  induction a as [|x a IH]; [reflexivity|].
  change (String x (a +:+ "") = String x a). by rewrite IH.
Qed.

(** ** The monad *)

Lemma bind_run {W A B} (m : Exec W A) (f : A -> Exec W B) w a w' t :
  m w = mkRan (Ok a) w' t ->
  bind m f w = mkRan (outcome (f a w')) (world (f a w')) (t ++ events (f a w')).
Proof. intros Hm. unfold bind. by rewrite Hm. Qed.

(** ** The lifecycle of managed objects *)

Section LifecycleFacts.
Import core.
Context {W : Type}.
Implicit Types (env : LifecycleEnvironment W) (objs : list (Managed W)) (w : W).

Lemma registered_objects objs : managedObjects (registered objs) = objs.
Proof.
  unfold registered.
  induction objs as [|o objs IH] using rev_ind; [reflexivity|].
  rewrite foldl_snoc. simpl. by rewrite IH.
Qed.

Lemma startAt_run env i o w :
  managedObjects env !! i = Some o ->
  startAt env i w =
    mkRan (Ok tt) (Start o w).2
      (EvStart i (Start o w).1 :: warnEvents Starting (Start o w).1).
Proof.
  intros Ho. unfold startAt. rewrite Ho. unfold bind, call.
  destruct (Start o w) as [[e|] w']; reflexivity.
Qed.

Lemma stopAt_run env i o w :
  managedObjects env !! i = Some o ->
  stopAt env i w =
    mkRan (Ok tt) (Stop o w).2
      (EvStop i (Stop o w).1 :: warnEvents Stopping (Stop o w).1).
Proof.
  intros Ho. unfold stopAt. rewrite Ho. unfold bind, call.
  destruct (Stop o w) as [[e|] w']; reflexivity.
Qed.

Lemma started_app (t1 t2 : list Event) :
  started (t1 ++ t2) = started t1 ++ started t2.
Proof. apply omap_app. Qed.

Lemma stopped_app (t1 t2 : list Event) :
  stopped (t1 ++ t2) = stopped t1 ++ stopped t2.
Proof. apply omap_app. Qed.

Lemma started_warnEvents ph err : started (warnEvents ph err) = [].
Proof. by destruct err. Qed.

Lemma stopped_warnEvents ph err : stopped (warnEvents ph err) = [].
Proof. by destruct err. Qed.

Lemma warned_step ph i err t :
  warned ph t -> warned ph (attempt ph i err :: warnEvents ph err ++ t).
Proof.
  intros Ht j e Hin.
  apply elem_of_cons in Hin as [Heq|Hin].
  - assert (err = Some e) as -> by (destruct ph; simpl in Heq; congruence).
    simpl. set_solver.
  - apply elem_of_app in Hin as [Hin|Hin].
    + destruct err as [e'|]; [|by apply elem_of_nil in Hin].
      apply list_elem_of_singleton in Hin.
      destruct ph; discriminate Hin.
    + apply elem_of_cons; right. apply elem_of_app; right. by eapply Ht.
Qed.

Lemma startLoop_run env n : forall i w,
  i + n <= length (managedObjects env) ->
  let r := startLoop env i n w in
  outcome r = Ok tt
  /\ world r = foldl (fun w o => (Start o w).2) w (take n (drop i (managedObjects env)))
  /\ started (events r) = seq i n
  /\ stopped (events r) = []
  /\ warned Starting (events r).
Proof.
  induction n as [|n IH]; intros i w Hle.
  - simpl. repeat split. intros j e Hin. inversion Hin.
  - destruct (lookup_lt_is_Some_2 (managedObjects env) i) as [o Ho]; [lia|].
    destruct (IH (S i) (Start o w).2) as (Hout & Hw & Hs & Hno & Hwarn); [lia|].
    intros r.
    assert (r = mkRan (Ok tt) (world (startLoop env (S i) n (Start o w).2))
                  ((EvStart i (Start o w).1 :: warnEvents Starting (Start o w).1)
                     ++ events (startLoop env (S i) n (Start o w).2))) as ->.
    { unfold r. cbn [startLoop].
      rewrite (bind_run _ _ _ _ _ _ (startAt_run _ _ _ _ Ho)). by rewrite Hout. }
    cbn [outcome world events].
    repeat split.
    + rewrite Hw. by rewrite (drop_S _ _ _ Ho).
    + rewrite <- app_comm_cons.
      change (started (EvStart i (Start o w).1 :: ?t)) with (i :: started t).
      by rewrite started_app, started_warnEvents, Hs.
    + rewrite <- app_comm_cons.
      change (stopped (EvStart i (Start o w).1 :: ?t)) with (stopped t).
      by rewrite stopped_app, stopped_warnEvents, Hno.
    + rewrite <- app_comm_cons. by apply (warned_step Starting).
Qed.

Lemma stopLoop_run env n : forall w,
  n <= length (managedObjects env) ->
  let r := stopLoop env n w in
  outcome r = Ok tt
  /\ world r = foldl (fun w o => (Stop o w).2) w (reverse (take n (managedObjects env)))
  /\ stopped (events r) = reverse (seq 0 n)
  /\ started (events r) = []
  /\ warned Stopping (events r).
Proof.
  induction n as [|n IH]; intros w Hle.
  - simpl. repeat split. intros j e Hin. inversion Hin.
  - destruct (lookup_lt_is_Some_2 (managedObjects env) n) as [o Ho]; [lia|].
    destruct (IH (Stop o w).2) as (Hout & Hw & Hs & Hno & Hwarn); [lia|].
    intros r.
    assert (r = mkRan (Ok tt) (world (stopLoop env n (Stop o w).2))
                  ((EvStop n (Stop o w).1 :: warnEvents Stopping (Stop o w).1)
                     ++ events (stopLoop env n (Stop o w).2))) as ->.
    { unfold r. cbn [stopLoop].
      rewrite (bind_run _ _ _ _ _ _ (stopAt_run _ _ _ _ Ho)). by rewrite Hout. }
    cbn [outcome world events].
    repeat split.
    + rewrite Hw. by rewrite (take_S_r _ _ _ Ho), reverse_snoc.
    + rewrite <- app_comm_cons.
      change (stopped (EvStop n (Stop o w).1 :: ?t)) with (n :: stopped t).
      rewrite stopped_app, stopped_warnEvents, Hs.
      by rewrite seq_S, reverse_snoc.
    + rewrite <- app_comm_cons.
      change (started (EvStop n (Stop o w).1 :: ?t)) with (started t).
      by rewrite started_app, started_warnEvents, Hno.
    + rewrite <- app_comm_cons. by apply (warned_step Stopping).
Qed.

(** C1. Whatever objects are registered with [Manage], in whatever order
    and whatever their [Start] and [Stop] return, [onStarting] calls
    [Start] on the objects in the order of registration (indices
    [0, 1, ..., n-1], each acting on the state left by the one before) and
    calls no [Stop]; [onStopped] calls [Stop] on them in the reverse order
    (indices [n-1, ..., 1, 0]) and calls no [Start]. *)
Theorem start_in_registration_order_stop_in_reverse objs w :
  managedObjects (registered objs) = objs
  /\ started (events (onStarting (registered objs) w)) = seq 0 (length objs)
  /\ stopped (events (onStarting (registered objs) w)) = []
  /\ world (onStarting (registered objs) w)
     = foldl (fun w o => (Start o w).2) w objs
  /\ stopped (events (onStopped (registered objs) w))
     = reverse (seq 0 (length objs))
  /\ started (events (onStopped (registered objs) w)) = []
  /\ world (onStopped (registered objs) w)
     = foldl (fun w o => (Stop o w).2) w (reverse objs).
Proof.
  pose proof (registered_objects objs) as Hobjs.
  destruct (startLoop_run (registered objs) (length objs) 0 w)
    as (_ & Hw & Hs & Hno & _); [rewrite Hobjs; simpl; lia|].
  destruct (stopLoop_run (registered objs) (length objs) w)
    as (_ & Hw' & Hs' & Hno' & _); [rewrite Hobjs; lia|].
  unfold onStarting, onStopped. rewrite Hobjs in *.
  rewrite drop_0, firstn_all in Hw. rewrite firstn_all in Hw'.
  by repeat split.
Qed.

Lemma startLoop_calls env n : forall i w j o,
  i + n <= length (managedObjects env) ->
  i <= j < i + n ->
  managedObjects env !! j = Some o ->
  forall ev,
    ev ∈ EvStart j
           (Start o (foldl (fun w o => (Start o w).2) w
                       (take (j - i) (drop i (managedObjects env))))).1
         :: warnEvents Starting
              (Start o (foldl (fun w o => (Start o w).2) w
                          (take (j - i) (drop i (managedObjects env))))).1 ->
    ev ∈ events (startLoop env i n w).
Proof.
  induction n as [|n IH]; intros i w j o Hle Hj Ho ev Hev; [lia|].
  destruct (lookup_lt_is_Some_2 (managedObjects env) i) as [oi Hoi]; [lia|].
  cbn [startLoop]. rewrite (bind_run _ _ _ _ _ _ (startAt_run _ _ _ _ Hoi)).
  cbn [events]. apply elem_of_app.
  destruct (decide (j = i)) as [->|Hne].
  - left. rewrite Hoi in Ho. injection Ho as ->.
    by rewrite Nat.sub_diag, take_0 in Hev.
  - right. apply (IH (S i) (Start oi w).2 j o); [lia|lia|done|].
    rewrite (drop_S _ _ _ Hoi) in Hev.
    replace (j - i) with (S (j - S i)) in Hev by lia. exact Hev.
Qed.

Lemma stopLoop_calls env n : forall w j o,
  n <= length (managedObjects env) ->
  j < n ->
  managedObjects env !! j = Some o ->
  forall ev,
    ev ∈ EvStop j
           (Stop o (foldl (fun w o => (Stop o w).2) w
                      (reverse (drop (S j) (take n (managedObjects env)))))).1
         :: warnEvents Stopping
              (Stop o (foldl (fun w o => (Stop o w).2) w
                         (reverse (drop (S j) (take n (managedObjects env)))))).1 ->
    ev ∈ events (stopLoop env n w).
Proof.
  induction n as [|n IH]; intros w j o Hle Hj Ho ev Hev; [lia|].
  destruct (lookup_lt_is_Some_2 (managedObjects env) n) as [on Hon]; [lia|].
  cbn [stopLoop]. rewrite (bind_run _ _ _ _ _ _ (stopAt_run _ _ _ _ Hon)).
  cbn [events]. apply elem_of_app.
  destruct (decide (j = n)) as [->|Hne].
  - left. rewrite Hon in Ho. injection Ho as ->.
    rewrite drop_ge in Hev by (rewrite length_take; lia). exact Hev.
  - right. apply (IH (Stop on w).2 j o); [lia|lia|done|].
    rewrite (take_S_r _ _ _ Hon) in Hev.
    rewrite drop_app_le in Hev by (rewrite length_take; lia).
    by rewrite reverse_snoc in Hev.
Qed.

(** C2. Let object [i] be registered, and let the call that the
    transition makes on it ([Start] in [onStarting], resp. [Stop] in
    [onStopped]), in the state in which the transition makes it, return an
    error [e]. Then the transition still returns normally (the error is
    not propagated and the loop is not left), every registered object is
    called, once, in the order of the transition, the objects after the
    failing one included; the call on object [i] is in the trace with its
    error and so is the warning for [e]; and the state at the end is the
    one that the calls on all the objects leave, one after the other. *)
Theorem failing_object_does_not_stop_the_others ph objs w i o e :
  objs !! i = Some o ->
  (act ph o (stateAt ph objs i w)).1 = Some e ->
  outcome (transition ph (registered objs) w) = Ok tt
  /\ attempted ph (events (transition ph (registered objs) w))
     = callOrder ph (length objs)
  /\ attempt ph i (Some e) ∈ events (transition ph (registered objs) w)
  /\ warning ph e ∈ events (transition ph (registered objs) w)
  /\ world (transition ph (registered objs) w)
     = foldl (fun w o => (act ph o w).2) w (inOrder ph objs).
Proof.
  intros Ho Hfail.
  pose proof (registered_objects objs) as Hobjs.
  pose proof (lookup_lt_Some _ _ _ Ho) as Hi.
  destruct ph;
    cbv beta iota delta [transition attempted callOrder attempt act stateAt inOrder]
      in *.
  - destruct (startLoop_run (registered objs) (length objs) 0 w)
      as (Hout & Hw & Hs & _ & _); [rewrite Hobjs; simpl; lia|].
    pose proof (startLoop_calls (registered objs) (length objs) 0 w i o) as Hcalls.
    unfold onStarting. rewrite Hobjs in *.
    rewrite drop_0, Nat.sub_0_r, Hfail in Hcalls.
    rewrite drop_0, firstn_all in Hw.
    split; [exact Hout|]. split; [exact Hs|].
    split; [apply Hcalls; [simpl; lia|lia|done|apply list_elem_of_here]|].
    split; [apply Hcalls; [simpl; lia|lia|done|]|exact Hw].
    apply list_elem_of_further, list_elem_of_here.
  - destruct (stopLoop_run (registered objs) (length objs) w)
      as (Hout & Hw & Hs & _ & _); [rewrite Hobjs; lia|].
    pose proof (stopLoop_calls (registered objs) (length objs) w i o) as Hcalls.
    unfold onStopped. rewrite Hobjs in *.
    rewrite firstn_all in Hcalls, Hw. rewrite Hfail in Hcalls.
    split; [exact Hout|]. split; [exact Hs|].
    split; [apply Hcalls; [lia|lia|done|apply list_elem_of_here]|].
    split; [apply Hcalls; [lia|lia|done|]|exact Hw].
    apply list_elem_of_further, list_elem_of_here.
Qed.

End LifecycleFacts.

Lemma failing_start_witness :
  (outcome (core.transition core.Starting
              (core.registered [sample.steady; sample.broken; sample.steady]) 0)
   = Ok tt
   /\ core.attempted core.Starting
        (events (core.transition core.Starting
                   (core.registered [sample.steady; sample.broken; sample.steady]) 0))
      = core.callOrder core.Starting 3
   /\ core.attempt core.Starting 1 (Some (errors.New "no start"))
        ∈ events (core.transition core.Starting
                    (core.registered [sample.steady; sample.broken; sample.steady]) 0)
   /\ core.warning core.Starting (errors.New "no start")
        ∈ events (core.transition core.Starting
                    (core.registered [sample.steady; sample.broken; sample.steady]) 0)
   /\ world (core.transition core.Starting
               (core.registered [sample.steady; sample.broken; sample.steady]) 0)
      = foldl (fun w o => (core.act core.Starting o w).2) 0
          (core.inOrder core.Starting [sample.steady; sample.broken; sample.steady]))
  /\ (outcome (core.transition core.Stopping
                 (core.registered [sample.steady; sample.broken; sample.steady]) 0)
      = Ok tt
      /\ core.attempted core.Stopping
           (events (core.transition core.Stopping
                      (core.registered [sample.steady; sample.broken; sample.steady]) 0))
         = core.callOrder core.Stopping 3
      /\ core.attempt core.Stopping 1 (Some (errors.New "no stop"))
           ∈ events (core.transition core.Stopping
                       (core.registered [sample.steady; sample.broken; sample.steady]) 0)
      /\ core.warning core.Stopping (errors.New "no stop")
           ∈ events (core.transition core.Stopping
                       (core.registered [sample.steady; sample.broken; sample.steady]) 0)
      /\ world (core.transition core.Stopping
                  (core.registered [sample.steady; sample.broken; sample.steady]) 0)
         = foldl (fun w o => (core.act core.Stopping o w).2) 0
             (core.inOrder core.Stopping
                [sample.steady; sample.broken; sample.steady])).
Proof.
  split.
  - apply (failing_object_does_not_stop_the_others core.Starting
             [sample.steady; sample.broken; sample.steady] 0 1 sample.broken
             (errors.New "no start")); reflexivity.
  - apply (failing_object_does_not_stop_the_others core.Stopping
             [sample.steady; sample.broken; sample.steady] 0 1 sample.broken
             (errors.New "no stop")); reflexivity.
Defined.

(** The whole trace of stopping the three objects: the last is stopped
    first, the failure of the second is logged, the first is stopped
    all the same. *)
Example stopping_three_objects :
  events (core.transition core.Stopping
            (core.registered [sample.steady; sample.broken; sample.steady]) 0)
  = [EvStop 2 None; EvStop 1 (Some (errors.New "no stop"));
     EvLog core.lifecycleLoggerName LevelWarn
       "error stopping a managed object: no stop";
     EvStop 0 None].
Proof. by vm_compute. Qed.

(** ** The bootstrap *)

Section BootstrapFacts.
Import core.
Context {W Cfg Env AppCfg : Type}.
Implicit Types (bs : list (Bundle W Cfg Env AppCfg)) (w : W).

(** [AddBundle] initializes the bundle and puts it last, behind the
    bundles that were there and those added while it was initialized. *)
Lemma AddBundle_appends (bootstrap : Bootstrap W Cfg Env AppCfg)
    (bundle : Bundle W Cfg Env AppCfg) w :
  exists bootstrap',
    outcome (AddBundle bootstrap bundle w) = Ok bootstrap'
    /\ bundles bootstrap'
       = (bundles bootstrap
          ++ addedBundles (Initialize bundle (seen bootstrap) w).1)
         ++ [bundle]
    /\ world (AddBundle bootstrap bundle w)
       = (Initialize bundle (seen bootstrap) w).2
    /\ events (AddBundle bootstrap bundle w) = [EvBundleInitialize].
Proof.
  unfold AddBundle, bind, call, ret.
  destruct (Initialize bundle (seen bootstrap) w) as [left w']. cbn. eauto.
Qed.

Lemma runFrom_cons (b0 : Bundle W Cfg Env AppCfg) bs (configuration : Cfg)
    (environment : Env) i w :
  runFrom i (b0 :: bs) configuration environment w
  = match (bundleRun b0 configuration environment w).1 with
    | Some e =>
        mkRan (Ok (Some e)) (bundleRun b0 configuration environment w).2
          [EvBundleRun i (Some e)]
    | None =>
        mkRan
          (outcome (runFrom (S i) bs configuration environment
                      (bundleRun b0 configuration environment w).2))
          (world (runFrom (S i) bs configuration environment
                    (bundleRun b0 configuration environment w).2))
          (EvBundleRun i None
           :: events (runFrom (S i) bs configuration environment
                        (bundleRun b0 configuration environment w).2))
    end.
Proof.
  cbn [runFrom]. unfold bind, call, ret.
  by destruct (bundleRun b0 configuration environment w) as [[e|] w'].
Qed.

(** The loop of [Bootstrap.Run], by what the bundles return in the states
    in which they are run. *)
Lemma runFrom_spec bs (configuration : Cfg) (environment : Env) : forall i w,
  (outcome (runFrom i bs configuration environment w) = Ok None
   /\ (forall k b, bs !! k = Some b ->
         (bundleRun b configuration environment
            (ran configuration environment (take k bs) w)).1 = None)
   /\ events (runFrom i bs configuration environment w)
      = (fun j => EvBundleRun j None) <$> seq i (length bs)
   /\ world (runFrom i bs configuration environment w)
      = ran configuration environment bs w)
  \/ (exists k b e,
        bs !! k = Some b
        /\ (forall j b', j < k -> bs !! j = Some b' ->
              (bundleRun b' configuration environment
                 (ran configuration environment (take j bs) w)).1 = None)
        /\ (bundleRun b configuration environment
              (ran configuration environment (take k bs) w)).1 = Some e
        /\ outcome (runFrom i bs configuration environment w) = Ok (Some e)
        /\ events (runFrom i bs configuration environment w)
           = ((fun j => EvBundleRun j None) <$> seq i k)
             ++ [EvBundleRun (i + k) (Some e)]
        /\ world (runFrom i bs configuration environment w)
           = ran configuration environment (take (S k) bs) w).
Proof.
  induction bs as [|b0 bs IH]; intros i w.
  - left. repeat split. intros k b Hk. by rewrite lookup_nil in Hk.
  - rewrite runFrom_cons.
    destruct (bundleRun b0 configuration environment w) as [[e|] w'] eqn:Hb0;
      cbn [fst snd outcome world events].
    + right. exists 0, b0, e. split; [done|].
      split; [intros j b' Hj; lia|].
      split; [cbn; by rewrite Hb0|]. split; [done|].
      split; [cbn; by rewrite Nat.add_0_r|].
      unfold ran. cbn. by rewrite take_0, Hb0.
    + assert (forall l, ran configuration environment (b0 :: l) w
                        = ran configuration environment l w') as Hran
        by (intros l; unfold ran; cbn; by rewrite Hb0).
      destruct (IH (S i) w') as [(Hout & Hnil & Hev & Hw)
                                |(k & b & e & Hk & Hnil & He & Hout & Hev & Hw)].
      * left. split; [exact Hout|]. split; [|split].
        -- intros [|k] b Hk; cbn in Hk.
           ++ injection Hk as <-. unfold ran. cbn. by rewrite Hb0.
           ++ cbn [take]. rewrite Hran. by apply Hnil.
        -- rewrite Hev. reflexivity.
        -- by rewrite Hran.
      * right. exists (S k), b, e. split; [done|]. split; [|split; [|split; [|split]]].
        -- intros [|j] b' Hj Hb'; cbn in Hb'.
           ++ injection Hb' as <-. unfold ran. cbn. by rewrite Hb0.
           ++ cbn [take]. rewrite Hran. apply Hnil; [lia|done].
        -- cbn [take]. by rewrite Hran.
        -- exact Hout.
        -- rewrite Hev. cbn. by rewrite Nat.add_succ_r.
        -- cbn [take]. by rewrite Hran.
Qed.

(** C3. Bundles are registered in the order in which [AddBundle] puts
    them last. [Bootstrap.Run] calls [Run] on the bundles in that order,
    each in the state that the one before has left. Either every bundle
    returns nil there, every bundle has been called, and the result is
    nil; or the bundles before some index [k] return nil, bundle [k]
    returns an error [e], no bundle after [k] is called, the state is the
    one that bundle [k] has left, and the result is that same [e]. *)
Theorem Bootstrap_Run_fail_fast (bootstrap : Bootstrap W Cfg Env AppCfg)
    (bundle : Bundle W Cfg Env AppCfg)
    (configuration : Cfg) (environment : Env) (w0 w : W) :
  (exists bootstrap',
     outcome (AddBundle bootstrap bundle w0) = Ok bootstrap'
     /\ bundles bootstrap'
        = (bundles bootstrap
           ++ addedBundles (Initialize bundle (seen bootstrap) w0).1)
          ++ [bundle])
  /\ ((outcome (BootstrapRun bootstrap configuration environment w) = Ok None
       /\ (forall k b, bundles bootstrap !! k = Some b ->
             (bundleRun b configuration environment
                (ran configuration environment (take k (bundles bootstrap)) w)).1
             = None)
       /\ events (BootstrapRun bootstrap configuration environment w)
          = (fun j => EvBundleRun j None) <$> seq 0 (length (bundles bootstrap))
       /\ world (BootstrapRun bootstrap configuration environment w)
          = ran configuration environment (bundles bootstrap) w)
      \/ (exists k b e,
            bundles bootstrap !! k = Some b
            /\ (forall j b', j < k -> bundles bootstrap !! j = Some b' ->
                  (bundleRun b' configuration environment
                     (ran configuration environment
                        (take j (bundles bootstrap)) w)).1 = None)
            /\ (bundleRun b configuration environment
                  (ran configuration environment
                     (take k (bundles bootstrap)) w)).1 = Some e
            /\ outcome (BootstrapRun bootstrap configuration environment w)
               = Ok (Some e)
            /\ events (BootstrapRun bootstrap configuration environment w)
               = ((fun j => EvBundleRun j None) <$> seq 0 k)
                 ++ [EvBundleRun k (Some e)]
            /\ world (BootstrapRun bootstrap configuration environment w)
               = ran configuration environment
                   (take (S k) (bundles bootstrap)) w)).
Proof.
  split.
  - destruct (AddBundle_appends bootstrap bundle w0) as (b' & Hout & Hbs & _).
    by exists b'.
  - apply (runFrom_spec (bundles bootstrap) configuration environment 0 w).
Qed.

End BootstrapFacts.

(** Of three bundles of which the second fails, the third is not run. *)
Example second_of_three_fails :
  let r := core.BootstrapRun (AppCfg := unit)
             {| core.Arguments := []; core.ConfigurationFactory := None;
                core.ValidatorFactory := false;
                core.bundles := [sample.assets; sample.failing; sample.assets];
                core.commands := [] |} tt tt 0 in
  outcome r = Ok (Some (errors.New "no database"))
  /\ events r = [EvBundleRun 0 None;
                 EvBundleRun 1 (Some (errors.New "no database"))]
  /\ world r = 2.
Proof. by vm_compute. Qed.

(** ** Command dispatch *)

Section RunFacts.
Import core gomelon.
Context {W Cfg Env AppCfg : Type}.
Implicit Types (cs : list (Command W)) (w : W)
  (bootstrap : Bootstrap W Cfg Env AppCfg).

Lemma initBootstrap_run (app : Application W Cfg Env AppCfg) args w :
  exists bootstrap w',
    initBootstrap app args w
    = mkRan (Ok bootstrap) w' [EvAppConfiguration; EvAppInitialize].
Proof.
  unfold initBootstrap, bind, call.
  destruct (appConfiguration app w) as [cfg w1]. cbn [outcome world events].
  destruct (appInitialize app _ w1) as [b w2]. cbn [outcome world events].
  by exists b, w2.
Qed.

Lemma printCommands_run cs w :
  printCommands cs w = mkRan (Ok tt) w (EvPrintln <$> catalogue cs).
Proof.
  induction cs as [|c cs IH]; [reflexivity|].
  cbn [printCommands]. unfold bind, println, emit. cbn [outcome world events].
  by rewrite IH.
Qed.

Lemma printHelp_run bootstrap w :
  printHelp bootstrap w
  = mkRan (Ok tt) w
      (EvPrintln <$> ("Available commands:" :: catalogue (Commands bootstrap))).
Proof.
  unfold printHelp, bind, println, emit. cbn [outcome world events].
  by rewrite printCommands_run.
Qed.

Lemma findCommand_none cs bootstrap arg0 : forall i w,
  Forall (fun c' => Name c' <> arg0) cs ->
  findCommand i cs bootstrap arg0 w = mkRan (Ok None) w [].
Proof.
  induction cs as [|c cs IH]; intros i w Hall; [reflexivity|].
  apply Forall_cons in Hall as [Hc Hcs].
  cbn [findCommand]. destruct (decide (Name c = arg0)); [done|].
  by apply IH.
Qed.

Lemma findCommand_some pre c post bootstrap arg0 : forall i w,
  Name c = arg0 ->
  Forall (fun c' => Name c' <> arg0) pre ->
  findCommand i (pre ++ c :: post) bootstrap arg0 w
  = mkRan (Ok (Some (cmdRun c (Arguments bootstrap) w).1))
      (cmdRun c (Arguments bootstrap) w).2
      [EvCommandRun (i + length pre) (cmdRun c (Arguments bootstrap) w).1].
Proof.
  induction pre as [|c' pre IH]; intros i w Hc Hpre.
  - cbn [app findCommand]. destruct (decide (Name c = arg0)); [|done].
    unfold bind, call, ret.
    destruct (cmdRun c (Arguments bootstrap) w) as [r w'].
    cbn. by rewrite Nat.add_0_r.
  - apply Forall_cons in Hpre as [Hc' Hpre].
    cbn [app findCommand]. destruct (decide (Name c' = arg0)); [done|].
    rewrite IH by done. cbn [length]. by rewrite Nat.add_succ_r.
Qed.

Lemma printed_println (ls : list string) : printed (EvPrintln <$> ls) = ls.
Proof.
  induction ls as [|l ls IH]; [done|].
  change (l :: printed (EvPrintln <$> ls) = l :: ls). by rewrite IH.
Qed.

Lemma commandsRun_println (ls : list string) : commandsRun (EvPrintln <$> ls) = [].
Proof.
  induction ls as [|l ls IH]; [done|].
  change (commandsRun (EvPrintln <$> ls) = []). exact IH.
Qed.

(** Every argument list selects a command or none. *)
Lemma Selection_total cs args : exists sel, Selection cs args sel.
Proof.
  destruct args as [|arg0 rest]; [exists None; constructor|].
  induction cs as [|c cs IH].
  - exists None. by constructor.
  - destruct (decide (Name c = arg0)) as [Hc|Hc].
    + exists (Some (0, c)). by apply (selected _ arg0 rest [] c cs).
    + destruct IH as [sel Hsel]. inversion Hsel as [? ? pre c0 post Hcs Hn Hpre| |? ? Hall]; subst.
      * exists (Some (length (c :: pre), c0)).
        apply (selected _ (Name c0) rest (c :: pre) c0 post); auto.
      * exists None. constructor. by constructor.
Qed.

(** C9. [Run] hands the bootstrap that [app.Initialize] has filled to the
    first registered command whose name is the first argument, and
    returns what that command's [Run] returns, printing nothing; when
    there is no argument, or no command of that name, it prints the
    catalogue (a heading, then name and description of each registered
    command), runs no command and returns nil. *)
Theorem Run_selects_command_by_first_argument
    (app : Application W Cfg Env AppCfg) args w bootstrap sel :
  outcome (initBootstrap app args w) = Ok bootstrap ->
  Selection (Commands bootstrap) args sel ->
  let w1 := world (initBootstrap app args w) in
  let r := Run app args w in
  match sel with
  | Some (i, c) =>
      outcome r = Ok (cmdRun c (Arguments bootstrap) w1).1
      /\ world r = (cmdRun c (Arguments bootstrap) w1).2
      /\ commandsRun (events r) = [i]
      /\ printed (events r) = []
  | None =>
      outcome r = Ok None
      /\ world r = w1
      /\ commandsRun (events r) = []
      /\ printed (events r)
         = "Available commands:" :: catalogue (Commands bootstrap)
  end.
Proof.
  intros Hinit Hsel.
  destruct (initBootstrap_run app args w) as (b & w' & Hrun).
  rewrite Hrun in Hinit. cbn in Hinit. injection Hinit as ->.
  intros w1 r. unfold w1, r, Run. rewrite Hrun. cbn [world].
  rewrite (bind_run _ _ _ _ _ _ Hrun).
  destruct Hsel as [arg0 rest pre c post Hcs Hc Hpre| |arg0 rest Hall].
  - rewrite Hcs.
    rewrite (bind_run _ _ _ _ _ _
               (findCommand_some pre c post bootstrap arg0 0 w' Hc Hpre)).
    cbn. done.
  - rewrite (bind_run _ _ _ _ _ _ (eq_refl : ret None w' = mkRan (Ok None) w' [])).
    rewrite (bind_run _ _ _ _ _ _ (printHelp_run bootstrap w')).
    cbn [outcome world events ret Datatypes.app]. rewrite app_nil_r.
    change (commandsRun (?a :: ?b :: ?t)) with (commandsRun t).
    change (printed (EvAppConfiguration :: EvAppInitialize :: ?t)) with (printed t).
    by rewrite commandsRun_println, printed_println.
  - rewrite (bind_run _ _ _ _ _ _
               (findCommand_none _ bootstrap arg0 0 w' Hall)).
    rewrite (bind_run _ _ _ _ _ _ (printHelp_run bootstrap w')).
    cbn [outcome world events ret Datatypes.app]. rewrite app_nil_r.
    change (commandsRun (?a :: ?b :: ?t)) with (commandsRun t).
    change (printed (EvAppConfiguration :: EvAppInitialize :: ?t)) with (printed t).
    by rewrite commandsRun_println, printed_println.
Qed.

End RunFacts.

Lemma Run_check_witness :
  let r := gomelon.Run sample.app ["check"; "config.json"] 0 in
  outcome r = Ok (Some (errors.New "bad configuration"))
  /\ world r = 22
  /\ commandsRun (events r) = [1]
  /\ printed (events r) = [].
Proof.
  apply (Run_selects_command_by_first_argument sample.app
           ["check"; "config.json"] 0
           (core.AddCommand
              (core.AddCommand
                 {| core.Arguments := ["check"; "config.json"];
                    core.ConfigurationFactory := Some tt;
                    core.ValidatorFactory := true;
                    core.bundles := []; core.commands := [] |}
                 sample.serve) sample.check)
           (Some (1, sample.check))).
  - reflexivity.
  - apply (gomelon.selected _ "check" ["config.json"] [sample.serve]
             sample.check []).
    + reflexivity.
    + reflexivity.
    + constructor; [discriminate|constructor].
Defined.

(** Without arguments the catalogue is printed and the result is nil. *)
Example Run_prints_catalogue :
  let r := gomelon.Run sample.app [] 0 in
  outcome r = Ok None
  /\ printed (events r)
     = ["Available commands:";
        "    server " +:+ TAB +:+ " runs the server";
        "    check " +:+ TAB +:+ " checks the configuration"].
Proof. by vm_compute. Qed.

(** ** The response writer *)

Section ResponseWriterFacts.
Import http.
Implicit Types (w : ResponseWriter).

Lemma written_WriteHeader code w : written (WriteHeader code w) = written w.
Proof. unfold WriteHeader. by destruct (sent w). Qed.

Lemma written_Write data w : written (Write data w) = written w +:+ data.
Proof. unfold Write. cbn [written]. by rewrite written_WriteHeader. Qed.

Lemma sent_Write data w :
  sent (Write data w) = Some (default (StatusOK, header w) (sent w)).
Proof.
  unfold Write, WriteHeader. destruct (sent w) eqn:E; cbn; by rewrite ?E.
Qed.

Lemma header_Write data w : header (Write data w) = header w.
Proof. unfold Write, WriteHeader. by destruct (sent w). Qed.

Lemma Status_finish w :
  Status (finish w) = default StatusOK (fst <$> sent w).
Proof. unfold finish. by destruct (sent w) as [[code h]|]. Qed.

Lemma Body_finish w : Body (finish w) = written w.
Proof. unfold finish. by destruct (sent w) as [[code h]|]. Qed.

Lemma wire_Write data w : wire (Write data w) = wire w.
Proof.
  unfold wire, finish, Write, WriteHeader.
  destruct (sent w) as [[c h]|] eqn:E; cbn; by rewrite ?E.
Qed.

Lemma wire_WriteHeader code w : wire (WriteHeader code w) = wire w.
Proof.
  unfold wire, finish, WriteHeader.
  destruct (sent w) as [[c h]|] eqn:E; cbn; by rewrite ?E.
Qed.

Lemma wire_Set key value w :
  sent w = None -> wire (Set_ key value w) = <[key := [value]]> (wire w).
Proof. unfold wire, finish, Set_. cbn. by intros ->. Qed.

Lemma sent_Set key value w : sent (Set_ key value w) = sent w.
Proof. reflexivity. Qed.

End ResponseWriterFacts.

(** ** The admin handlers and tasks: the Cache-Control header *)

Section CacheControlFacts.
Import http admin.
Variables rangeFirst rangeSecond : gmap string Result -> list (string * Result).
Variable Quote : string -> string.
Implicit Types (w : ResponseWriter) (r : Request) (p : Process).

Lemma wire_new : wire newResponseWriter = ∅.
Proof. reflexivity. Qed.

Lemma wire_Fprintf w text : wire (Fprintf w text) = wire w.
Proof. apply wire_Write. Qed.

(** The first two statements of every admin handler. *)
Lemma wire_preamble contentType :
  wire (Set_ "Content-Type" contentType
          (Set_ "Cache-Control" cacheControl newResponseWriter))
    !! "Cache-Control" = Some [cacheControl].
Proof. reflexivity. Qed.

Lemma wire_writeResult name result w : wire (writeResult name result w) = wire w.
Proof.
  unfold writeResult.
  destruct (Cause result); destruct (decide (Message result = ""));
    by rewrite ?wire_Fprintf.
Qed.

Lemma wire_writeResults rs w : wire (writeResults rs w) = wire w.
Proof.
  revert w. induction rs as [|[name result] rs IH]; intros w; [done|].
  cbn [writeResults]. by rewrite IH, wire_writeResult.
Qed.

Lemma wire_writeVars kvs : forall first w,
  wire (writeVars Quote first kvs w) = wire w.
Proof.
  induction kvs as [|[key value] kvs IH]; intros first w; [done|].
  cbn [writeVars]. rewrite IH, wire_Fprintf.
  destruct first; cbn [negb]; by rewrite ?wire_Fprintf.
Qed.

Lemma wire_printLevels names : forall w g,
  wire (printLevels names w g).1 = wire w.
Proof.
  induction names as [|name names IH]; intros w g; [done|].
  cbn [printLevels]. destruct (gol.GetLogger name g) as [[level|] g'];
    by rewrite IH, ?wire_Fprintf.
Qed.

Lemma cache_control_ping r p :
  carriesCacheControl (respond pingHandler_ServeHTTP r p).
Proof. reflexivity. Qed.

Lemma cache_control_home hs contextPath r p :
  carriesCacheControl (respond (adminHomeHandler hs contextPath) r p).
Proof.
  unfold carriesCacheControl, respond, adminHomeHandler. cbn [fst].
  change (ResponseHeader (finish ?w)) with (wire w).
  rewrite wire_Fprintf. apply wire_preamble.
Qed.

Lemma cache_control_runtime r p :
  carriesCacheControl (respond runtimeHandler_ServeHTTP r p).
Proof.
  unfold carriesCacheControl, respond, runtimeHandler_ServeHTTP. cbn [fst].
  change (ResponseHeader (finish ?w)) with (wire w).
  rewrite !wire_Fprintf. apply wire_preamble.
Qed.

Lemma cache_control_metrics r p :
  carriesCacheControl (respond (metricsHandler_ServeHTTP Quote) r p).
Proof.
  unfold carriesCacheControl, respond, metricsHandler_ServeHTTP. cbn [fst].
  change (ResponseHeader (finish ?w)) with (wire w).
  rewrite wire_Fprintf, wire_writeVars, wire_Fprintf. apply wire_preamble.
Qed.

Lemma cache_control_healthcheck r p :
  carriesCacheControl
    (respond (healthCheckHandler_ServeHTTP rangeFirst rangeSecond) r p).
Proof.
  unfold carriesCacheControl, respond, healthCheckHandler_ServeHTTP.
  destruct (Nat.eqb _ 0); cbn [fst];
    change (ResponseHeader (finish ?w)) with (wire w).
  - rewrite wire_Write, wire_WriteHeader. apply wire_preamble.
  - rewrite wire_writeResults.
    destruct (negb _); rewrite ?wire_WriteHeader; apply wire_preamble.
Qed.

Lemma no_cache_control_gc r p :
  ResponseHeader (respond gcTask_ServeHTTP r p) !! "Cache-Control" = None.
Proof. reflexivity. Qed.

Lemma no_cache_control_log r p :
  ResponseHeader (respond logTask_ServeHTTP r p) !! "Cache-Control" = None.
Proof.
  unfold respond, logTask_ServeHTTP.
  destruct (Query r !! "logger") as [[|name names]|]; [done| |done].
  destruct (decide (Get (Query r) "level" = "")).
  - pose proof (wire_printLevels (name :: names) newResponseWriter (loggers p)) as H.
    destruct (printLevels _ _ _) as [w g]. cbn [fst] in *.
    change (ResponseHeader (finish ?w)) with (wire w). by rewrite H.
  - destruct (parseLogLevel _) as [logLevel [|]]; [|done].
    pose proof (wire_printLevels (name :: names) newResponseWriter
                  (setLevels (name :: names) logLevel (loggers p))) as H.
    destruct (printLevels _ _ _) as [w g]. cbn [fst] in *.
    change (ResponseHeader (finish ?w)) with (wire w). by rewrite H.
Qed.

End CacheControlFacts.

(** C6, as the code has it. Every response of an admin handler (the home
    page and the four default handlers: metrics, ping, runtime and health
    check) carries [Cache-Control: must-revalidate,no-cache,no-store];
    the responses of the two default tasks, gc and log, carry no
    Cache-Control header. *)
Theorem handlers_set_cache_control_tasks_do_not
    (rangeFirst rangeSecond : gmap string admin.Result -> list (string * admin.Result))
    (Quote : string -> string) (r : http.Request) (p : admin.Process) :
  Forall (fun h => admin.carriesCacheControl (admin.respond (admin.ServeHTTP h) r p))
    (admin.handlers (admin.NewAdminEnvironment rangeFirst rangeSecond Quote))
  /\ (forall hs contextPath,
        admin.carriesCacheControl
          (admin.respond (admin.adminHomeHandler hs contextPath) r p))
  /\ Forall (fun t => http.ResponseHeader (admin.respond (admin.TaskServeHTTP t) r p)
                        !! "Cache-Control" = None)
       (admin.tasks (admin.NewAdminEnvironment rangeFirst rangeSecond Quote)).
Proof.
  split; [|split].
  - constructor; [apply cache_control_metrics|].
    constructor; [apply cache_control_ping|].
    constructor; [apply cache_control_runtime|].
    constructor; [apply cache_control_healthcheck|constructor].
  - intros hs contextPath. apply cache_control_home.
  - constructor; [apply no_cache_control_gc|].
    constructor; [apply no_cache_control_log|constructor].
Qed.

(** C6, as stated, fails on the gc task and on the log task: their
    responses carry no Cache-Control header. *)
Lemma tasks_without_cache_control :
  ~ admin.carriesCacheControl
      (admin.respond admin.gcTask_ServeHTTP sample.noQuery sample.process)
  /\ ~ admin.carriesCacheControl
        (admin.respond admin.logTask_ServeHTTP sample.readLevel sample.process).
Proof. split; intros H; vm_compute in H; discriminate H. Qed.

(** ** The admin environment: registration *)

Section RegistrationFacts.
Import admin.
Implicit Types (env : AdminEnvironment) (hs : list AdminHandler) (ts : list Task).

Lemma NoDup_default_paths rangeFirst rangeSecond Quote :
  NoDup (Path <$> handlers (NewAdminEnvironment rangeFirst rangeSecond Quote)).
Proof. cbn. apply (bool_decide_unpack _). by vm_compute. Qed.

Lemma NoDup_default_names rangeFirst rangeSecond Quote :
  NoDup (TaskName <$> tasks (NewAdminEnvironment rangeFirst rangeSecond Quote)).
Proof. cbn. apply (bool_decide_unpack _). by vm_compute. Qed.

End RegistrationFacts.

(** C7, as the code has it. [AddHandler] and [AddTask] append what they
    are given and check nothing. The environment that
    [NewAdminEnvironment] builds has pairwise distinct handler paths and
    pairwise distinct task names; after [AddHandler] (resp. [AddTask]) the
    paths (resp. names) are pairwise distinct exactly when they were
    before, those added are pairwise distinct, and none of those added
    was registered already. *)
Theorem registration_appends_without_check
    (rangeFirst rangeSecond : gmap string admin.Result -> list (string * admin.Result))
    (Quote : string -> string)
    (env : admin.AdminEnvironment) (hs : list admin.AdminHandler)
    (ts : list admin.Task) :
  NoDup (admin.Path <$> admin.handlers
           (admin.NewAdminEnvironment rangeFirst rangeSecond Quote))
  /\ NoDup (admin.TaskName <$> admin.tasks
              (admin.NewAdminEnvironment rangeFirst rangeSecond Quote))
  /\ admin.handlers (admin.AddHandler env hs) = admin.handlers env ++ hs
  /\ admin.tasks (admin.AddHandler env hs) = admin.tasks env
  /\ admin.tasks (admin.AddTask env ts) = admin.tasks env ++ ts
  /\ admin.handlers (admin.AddTask env ts) = admin.handlers env
  /\ (NoDup (admin.Path <$> admin.handlers (admin.AddHandler env hs))
      <-> NoDup (admin.Path <$> admin.handlers env)
          /\ (forall path, path ∈ admin.Path <$> admin.handlers env ->
                           path ∉ admin.Path <$> hs)
          /\ NoDup (admin.Path <$> hs))
  /\ (NoDup (admin.TaskName <$> admin.tasks (admin.AddTask env ts))
      <-> NoDup (admin.TaskName <$> admin.tasks env)
          /\ (forall name, name ∈ admin.TaskName <$> admin.tasks env ->
                           name ∉ admin.TaskName <$> ts)
          /\ NoDup (admin.TaskName <$> ts)).
Proof.
  split; [apply NoDup_default_paths|].
  split; [apply NoDup_default_names|].
  do 4 (split; [reflexivity|]).
  split; cbn [admin.AddHandler admin.AddTask admin.handlers admin.tasks];
    rewrite fmap_app; apply NoDup_app.
Qed.

(** C7, as stated, fails: a second handler for [/ping] is accepted, and
    the paths of the environment are no longer pairwise distinct. *)
Lemma colliding_handler_is_accepted :
  admin.handlers (admin.AddHandler sample.env [admin.pingHandler])
  = admin.handlers sample.env ++ [admin.pingHandler]
  /\ ~ NoDup (admin.Path <$>
               admin.handlers (admin.AddHandler sample.env [admin.pingHandler])).
Proof.
  split; [reflexivity|].
  apply (proj1 (bool_decide_eq_false _)). by vm_compute.
Qed.

(** ** Case folding and the level names *)

Section LevelFacts.
Import admin.

Lemma asciiUpper_asciiLower a : asciiUpper (asciiLower a) = asciiUpper a.
Proof. by destruct a as [[] [] [] [] [] [] [] []]. Qed.

Lemma asciiLower_asciiUpper a : asciiLower (asciiUpper a) = asciiLower a.
Proof. by destruct a as [[] [] [] [] [] [] [] []]. Qed.

Lemma fold_ascii a b :
  Ascii.eqb (asciiLower a) (asciiLower b) = true <-> asciiUpper a = asciiUpper b.
Proof.
  rewrite Ascii.eqb_eq. split; intros H.
  - by rewrite <- (asciiUpper_asciiLower a), H, asciiUpper_asciiLower.
  - by rewrite <- (asciiLower_asciiUpper a), H, asciiLower_asciiUpper.
Qed.

Lemma EqualFold_ToUpper s : forall t,
  EqualFold s t = true <-> ToUpper s = ToUpper t.
Proof.
  induction s as [|a s IH]; intros [|b t]; cbn [EqualFold ToUpper];
    [done|done|done|].
  rewrite andb_true_iff, fold_ascii, IH. split.
  - by intros [-> ->].
  - intros H. by injection H.
Qed.

Lemma parseIn_true ls level l :
  parseIn ls level = (l, true) ->
  l ∈ ls /\ EqualFold level (LevelString l) = true.
Proof.
  induction ls as [|l' ls IH]; cbn [parseIn]; [done|].
  destruct (EqualFold level (LevelString l')) eqn:E.
  - intros [= <-]. split; [apply list_elem_of_here|done].
  - intros H. destruct (IH H) as [Hin Hl].
    split; [by apply list_elem_of_further|done].
Qed.

Lemma parseIn_false ls level :
  (forall l, l ∈ ls -> EqualFold level (LevelString l) = false) ->
  parseIn ls level = (LevelOff, false).
Proof.
  induction ls as [|l' ls IH]; intros H; cbn [parseIn]; [done|].
  rewrite (H l') by apply list_elem_of_here.
  apply IH. intros l Hl. by apply H, list_elem_of_further.
Qed.

Lemma parseLogLevel_unsupported level :
  ~ supported level -> parseLogLevel level = (LevelOff, false).
Proof.
  intros Hno. apply parseIn_false. intros l _.
  destruct (EqualFold level (LevelString l)) eqn:E; [|done].
  destruct Hno. exists l. by apply EqualFold_ToUpper.
Qed.

Lemma parseLogLevel_supported level l :
  parseLogLevel level = (l, true) -> ToUpper level = LevelString l.
Proof.
  intros H. apply parseIn_true in H as [_ H].
  apply EqualFold_ToUpper in H. rewrite H. by destruct l.
Qed.

Lemma parseLogLevel_LevelString l : parseLogLevel (LevelString l) = (l, true).
Proof. by destruct l. Qed.

Lemma parseLogLevel_empty : parseLogLevel "" = (LevelOff, false).
Proof. reflexivity. Qed.

End LevelFacts.

(** ** The loggers *)

Section LoggerFacts.
Import gol.
Implicit Types (g : Loggers) (name : string).

Lemma currentLevel_GetLogger name g other :
  currentLevel (GetLogger name g).2 other = currentLevel g other.
Proof.
  unfold currentLevel, GetLogger.
  destruct (existing g !! name) eqn:Hname; [done|]. cbn [snd existing fresh].
  destruct (decide (name = other)) as [->|Hne].
  - rewrite lookup_insert_eq. by rewrite Hname.
  - rewrite lookup_insert_ne by done. by destruct (existing g !! other).
Qed.

Lemma currentLevel_SetLevel name level g other :
  currentLevel (SetLevel name level g) other
  = if decide (name = other) then Some level else currentLevel g other.
Proof.
  unfold currentLevel, GetLogger, SetLevel. cbn [existing fresh].
  destruct (decide (name = other)) as [->|Hne].
  - by rewrite lookup_insert_eq.
  - rewrite lookup_insert_ne by done. by destruct (existing g !! other).
Qed.

Lemma GetLogger_currentLevel name g :
  currentLevel g name
  = match (GetLogger name g).1 with
    | DefaultLogger l => Some l
    | OtherLogger => None
    end.
Proof. reflexivity. Qed.

End LoggerFacts.

(** ** The log task *)

Section LogTaskFacts.
Import http admin.
Implicit Types (w : ResponseWriter) (r : Request) (p : Process)
  (g : gol.Loggers) (names : list string).

Lemma currentLevel_printLevels names other : forall w g,
  gol.currentLevel (printLevels names w g).2 other = gol.currentLevel g other.
Proof.
  induction names as [|name names IH]; intros w g; [done|].
  cbn [printLevels].
  pose proof (currentLevel_GetLogger name g other) as Hget.
  destruct (gol.GetLogger name g) as [logger g']. cbn [snd] in Hget.
  by rewrite IH.
Qed.



Lemma Status_printLevels names : forall w g,
  Status (finish w) = StatusOK ->
  Status (finish (printLevels names w g).1) = StatusOK.
Proof.
  induction names as [|name names IH]; intros w g Hw; [done|].
  cbn [printLevels]. destruct (gol.GetLogger name g) as [[l|] g'];
    apply IH; [|done].
  rewrite Status_finish in *. unfold Fprintf. rewrite sent_Write.
  by destruct (sent w) as [[code h]|].
Qed.

(** C5, as the code has it. A request to the log task with at least one
    [logger] value and a [level] value that is not empty and matches none
    of ALL, TRACE, DEBUG, INFO, WARN, ERROR, OFF up to case is answered
    with status 400 and the body [Level is not supported] followed by a
    line feed, and the state of the process, hence the level of every
    logger, is left as it was. *)
Theorem unsupported_level_is_rejected r p name names level :
  Query r !! "logger" = Some (name :: names) ->
  Get (Query r) "level" = level ->
  level <> "" ->
  ~ supported level ->
  Status (respond logTask_ServeHTTP r p) = 400
  /\ Body (respond logTask_ServeHTTP r p) = "Level is not supported" +:+ LF
  /\ after logTask_ServeHTTP r p = p.
Proof.
  intros Hlogger Hlevel Hne Hno.
  unfold respond, after, logTask_ServeHTTP.
  rewrite Hlogger, Hlevel.
  destruct (decide (level = "")); [done|].
  by rewrite (parseLogLevel_unsupported _ Hno).
Qed.

(** C10. A request to the log task with at least one [logger] value and a
    [level] parameter whose value is the empty string is answered as the
    same request without the [level] parameter: the same response, with
    status 200 and not 400, the same state afterwards, and the level of
    every logger as it was before. *)
Theorem empty_level_is_no_level r p name names rest :
  Query r !! "logger" = Some (name :: names) ->
  Query r !! "level" = Some ("" :: rest) ->
  respond logTask_ServeHTTP r p
  = respond logTask_ServeHTTP {| Query := delete "level" (Query r) |} p
  /\ after logTask_ServeHTTP r p
     = after logTask_ServeHTTP {| Query := delete "level" (Query r) |} p
  /\ Status (respond logTask_ServeHTTP r p) = 200
  /\ forall other,
       gol.currentLevel (loggers (after logTask_ServeHTTP r p)) other
       = gol.currentLevel (loggers p) other.
Proof.
  intros Hlogger Hlevel.
  assert (Get (Query r) "level" = "") as Hget by (unfold Get; by rewrite Hlevel).
  assert (Get (delete "level" (Query r)) "level" = "") as Hget'
    by (unfold Get; by rewrite lookup_delete_eq).
  assert (delete "level" (Query r) !! "logger" = Some (name :: names)) as Hlogger'
    by (by rewrite lookup_delete_ne).
  unfold respond, after, logTask_ServeHTTP. cbn [Query].
  rewrite Hlogger, Hlogger', Hget, Hget'.
  destruct (decide ("" = "")); [|done].
  pose proof (Status_printLevels (name :: names) newResponseWriter (loggers p)
                eq_refl) as Hstatus.
  pose proof (fun other => currentLevel_printLevels (name :: names) other
                             newResponseWriter (loggers p)) as Hlevels.
  destruct (printLevels (name :: names) newResponseWriter (loggers p)) as [w g].
  by repeat split.
Qed.


End LogTaskFacts.

Lemma unsupported_level_witness :
  http.Status (admin.respond admin.logTask_ServeHTTP sample.bogusLevel
                 sample.process) = 400
  /\ http.Body (admin.respond admin.logTask_ServeHTTP sample.bogusLevel
                  sample.process) = "Level is not supported" +:+ LF
  /\ admin.after admin.logTask_ServeHTTP sample.bogusLevel sample.process
     = sample.process.
Proof.
  apply (unsupported_level_is_rejected sample.bogusLevel sample.process
           "x" [] "bogus").
  - reflexivity.
  - reflexivity.
  - discriminate.
  - intros [l Hl]. destruct l; vm_compute in Hl; discriminate Hl.
Defined.

(** C5, as stated, fails on the body: [http.Error] ends the message with
    a line feed. *)
Lemma rejection_body_ends_with_line_feed :
  http.Status (admin.respond admin.logTask_ServeHTTP sample.bogusLevel
                 sample.process) = 400
  /\ http.Body (admin.respond admin.logTask_ServeHTTP sample.bogusLevel
                  sample.process) <> "Level is not supported".
Proof. split; [reflexivity|]. vm_compute. discriminate. Qed.

Lemma empty_level_witness :
  admin.respond admin.logTask_ServeHTTP sample.emptyLevel sample.process
  = admin.respond admin.logTask_ServeHTTP
      {| http.Query := delete "level" (http.Query sample.emptyLevel) |}
      sample.process
  /\ admin.after admin.logTask_ServeHTTP sample.emptyLevel sample.process
     = admin.after admin.logTask_ServeHTTP
         {| http.Query := delete "level" (http.Query sample.emptyLevel) |}
         sample.process
  /\ http.Status (admin.respond admin.logTask_ServeHTTP sample.emptyLevel
                    sample.process) = 200
  /\ forall other,
       gol.currentLevel
         (admin.loggers (admin.after admin.logTask_ServeHTTP sample.emptyLevel
                           sample.process)) other
       = gol.currentLevel (admin.loggers sample.process) other.
Proof.
  apply (empty_level_is_no_level sample.emptyLevel sample.process "x" [] []).
  - reflexivity.
  - reflexivity.
Defined.


(** The level text is matched whatever the case of its letters. *)
Example parseLogLevel_warn : admin.parseLogLevel "wArn" = (LevelWarn, true).
Proof. reflexivity. Qed.


(** ** The health check handler *)

Section HealthCheckFacts.
Import http admin.
(** Whatever order Go chooses for a [range] over the results, it visits
    each entry of the map once. *)
Variables rangeFirst rangeSecond : gmap string Result -> list (string * Result).
Hypothesis rangeFirst_entries : forall m, rangeFirst m ≡ₚ map_to_list m.
Hypothesis rangeSecond_entries : forall m, rangeSecond m ≡ₚ map_to_list m.
Implicit Types (w : ResponseWriter) (r : Request) (p : Process)
  (rs : list (string * Result)).

Lemma written_writeResult name result w :
  written (writeResult name result w) = written w +:+ report name result.
Proof.
  unfold writeResult, report, Fprintf.
  destruct (Cause result) as [cause|];
    destruct (decide (Message result = "")) as [Hm|Hm];
    rewrite ?written_Write, ?string_app_assoc, ?string_app_nil_r;
    reflexivity.
Qed.

Lemma written_writeResults rs : forall w,
  exists tail, written (writeResults rs w) = written w +:+ tail.
Proof.
  induction rs as [|[name result] rs IH]; intros w.
  - exists "". by rewrite string_app_nil_r.
  - cbn [writeResults]. destruct (IH (writeResult name result w)) as [tail ->].
    rewrite written_writeResult. exists (report name result +:+ tail).
    by rewrite string_app_assoc.
Qed.

Lemma writeResults_contains rs name result : forall w,
  (name, result) ∈ rs ->
  contains (written (writeResults rs w)) (report name result).
Proof.
  induction rs as [|[name' result'] rs IH]; intros w Hin.
  - by apply elem_of_nil in Hin.
  - cbn [writeResults]. apply elem_of_cons in Hin as [[= <- <-]|Hin].
    + destruct (written_writeResults rs (writeResult name result w)) as [tail ->].
      rewrite written_writeResult. exists (written w), tail.
      by rewrite string_app_assoc.
    + by apply IH.
Qed.

Lemma sent_writeResult name result w :
  fst <$> sent (writeResult name result w)
  = Some (default StatusOK (fst <$> sent w)).
Proof.
  unfold writeResult, Fprintf.
  destruct (Cause result) as [cause|];
    destruct (decide (Message result = "")) as [Hm|Hm];
    rewrite !sent_Write; cbn; by destruct (sent w) as [[code h]|].
Qed.

Lemma sent_writeResults rs : forall w,
  rs <> [] ->
  fst <$> sent (writeResults rs w) = Some (default StatusOK (fst <$> sent w)).
Proof.
  induction rs as [|[name result] rs IH]; intros w Hne; [done|].
  cbn [writeResults]. destruct rs as [|entry rs].
  - apply sent_writeResult.
  - rewrite IH by done. by rewrite sent_writeResult.
Qed.

Lemma allHealthy_Forall rs :
  allHealthy rs = true <-> Forall (fun entry => Healthy entry.2 = true) rs.
Proof.
  induction rs as [|[name result] rs IH]; cbn [allHealthy]; [done|].
  rewrite Forall_cons. cbn [snd].
  destruct (Healthy result); cbn [negb]; [|split; [done|by intros [? _]]].
  rewrite IH. split; [done|by intros [_ ?]].
Qed.

Lemma isAllHealthy_map_Forall (results : gmap string Result) :
  isAllHealthy rangeFirst results = true
  <-> map_Forall (fun _ result => Healthy result = true) results.
Proof.
  unfold isAllHealthy. rewrite allHealthy_Forall, rangeFirst_entries.
  rewrite map_Forall_to_list. apply Forall_iff. by intros [name result].
Qed.

(** C4. With no health check registered the response has status 501 and
    the body [No health checks registered.]; otherwise its status is 200
    if every result is healthy and 500 if not, and for each check its
    body contains the lines of the check: name and health, the message
    if there is one, the cause if there is one. *)
Theorem healthcheck_status_and_report r p :
  let results := RunHealthChecks p in
  let resp := respond (healthCheckHandler_ServeHTTP rangeFirst rangeSecond) r p in
  if decide (results = ∅)
  then Status resp = 501 /\ Body resp = "No health checks registered."
  else Status resp
       = (if decide (map_Forall (fun _ result => Healthy result = true) results)
          then 200 else 500)
       /\ map_Forall (fun name result => contains (Body resp) (report name result))
            results.
Proof.
  intros results resp. unfold resp, respond, healthCheckHandler_ServeHTTP.
  fold results. destruct (decide (results = ∅)) as [Hempty|Hsome].
  - rewrite Hempty, map_size_empty. by cbn.
  - assert (size results <> 0) as Hsize by (by apply map_size_non_empty_iff).
    apply Nat.eqb_neq in Hsize. rewrite Hsize. cbn [fst].
    assert (rangeSecond results <> []) as Hrange.
    { intros Hnil. apply Hsome, map_to_list_empty_iff, Permutation_nil.
      by rewrite <- Hnil, rangeSecond_entries. }
    split.
    + rewrite Status_finish, (sent_writeResults _ _ Hrange).
      pose proof (isAllHealthy_map_Forall results) as Hall.
      destruct (isAllHealthy rangeFirst results); cbn [negb].
      * rewrite decide_True by (by apply Hall). reflexivity.
      * rewrite decide_False; [reflexivity|]. intros H. by apply Hall in H.
    + intros name result Hlookup. rewrite Body_finish.
      apply writeResults_contains.
      rewrite rangeSecond_entries. by apply elem_of_map_to_list.
Qed.

End HealthCheckFacts.

Lemma healthcheck_witness :
  http.Status
    (admin.respond (admin.healthCheckHandler_ServeHTTP sample.range sample.range)
       sample.noQuery sample.process) = 500
  /\ map_Forall
       (fun name result =>
          admin.contains
            (http.Body
               (admin.respond
                  (admin.healthCheckHandler_ServeHTTP sample.range sample.range)
                  sample.noQuery sample.process))
            (admin.report name result))
       (admin.RunHealthChecks sample.process).
Proof.
  pose proof (healthcheck_status_and_report sample.range sample.range
                (fun m => reflexivity _) (fun m => reflexivity _)
                sample.noQuery sample.process) as H.
  cbv zeta in H.
  destruct (decide (admin.RunHealthChecks sample.process = ∅)) as [Hempty|_].
  - apply (f_equal (fun m => m !! "A")) in Hempty. vm_compute in Hempty.
    discriminate Hempty.
  - destruct (decide (map_Forall _ _)) as [Hall|_]; [|exact H].
    specialize (Hall "B" _ eq_refl). discriminate Hall.
Defined.

(** The report for a healthy check A and an unhealthy check B. *)
Example healthcheck_A_and_B :
  http.Body
    (admin.respond (admin.healthCheckHandler_ServeHTTP sample.range sample.range)
       sample.noQuery sample.process)
  = "A:" +:+ LF +:+ TAB +:+ "Healthy: true" +:+ LF
    +:+ "B:" +:+ LF +:+ TAB +:+ "Healthy: false" +:+ LF
    +:+ TAB +:+ "Message: down" +:+ LF +:+ TAB +:+ "Cause: timeout" +:+ LF.
Proof. by vm_compute. Qed.

(** * Further properties *)

(** ** Parsing a level *)

Section ParseFacts.
Import admin.

Lemma ToUpper_LevelString l : ToUpper (LevelString l) = LevelString l.
Proof. by destruct l. Qed.

Lemma LevelString_inj l l' : LevelString l = LevelString l' -> l = l'.
Proof. destruct l, l'; (reflexivity || discriminate). Qed.

Lemma EqualFold_LevelString level l l' :
  ToUpper level = LevelString l ->
  EqualFold level (LevelString l') = true <-> l' = l.
Proof.
  intros Hl. rewrite EqualFold_ToUpper, ToUpper_LevelString, Hl. split.
  - intros H. symmetry. by apply LevelString_inj.
  - by intros ->.
Qed.

Lemma parseLogLevel_by_name level l :
  ToUpper level = LevelString l -> parseLogLevel level = (l, true).
Proof.
  intros Hl.
  pose proof (EqualFold_LevelString level l) as Hfold.
  unfold parseLogLevel, logLevels. cbn [parseIn].
  repeat match goal with
  | |- context [EqualFold level (LevelString ?l')] =>
      destruct (EqualFold level (LevelString l')) eqn:?;
        [match goal with H : EqualFold level _ = true |- _ =>
           apply (Hfold _ Hl) in H; by rewrite H end|]
  end.
  destruct l;
    match goal with H : EqualFold level (LevelString ?l') = false |- _ =>
      assert (EqualFold level (LevelString l') = true) as Htrue
        by (by apply (Hfold _ Hl));
      rewrite Htrue in H; discriminate H end.
Qed.

(** X1. [parseLogLevel] accepts a text exactly when, with its letters in
    upper case, it is the name of a level, and it returns the level so
    named: the names are read back whatever the case of their letters,
    and no text is read as a level of another name. *)
Theorem parseLogLevel_reads_the_names level l :
  parseLogLevel level = (l, true) <-> ToUpper level = LevelString l.
Proof. split; [apply parseLogLevel_supported|apply parseLogLevel_by_name]. Qed.

(** X2. [parseLogLevel] fails, with [gol.LevelOff] as its level, exactly
    on the texts that match no level name up to case; the empty text is
    one of them. *)
Theorem parseLogLevel_fails_on_the_rest level :
  (parseLogLevel level = (LevelOff, false) <-> ~ supported level)
  /\ parseLogLevel "" = (LevelOff, false).
Proof.
  split; [|reflexivity]. split.
  - intros Hparse [l Hl]. rewrite ToUpper_LevelString in Hl.
    apply parseLogLevel_by_name in Hl. congruence.
  - apply parseLogLevel_unsupported.
Qed.

End ParseFacts.

(** ** The log task: no logger, the report, the levels set *)

Section LogTaskReport.
Import http admin.
Implicit Types (w : ResponseWriter) (r : Request) (p : Process)
  (g : gol.Loggers) (names : list string).

Lemma concatAll_cons (text : string) (texts : list string) :
  concatAll (text :: texts) = text +:+ concatAll texts.
Proof.
  unfold concatAll. destruct texts as [|text' texts]; cbn [String.concat].
  - by rewrite string_app_nil_r.
  - reflexivity.
Qed.

Lemma levelLine_GetLogger name g other :
  levelLine (gol.GetLogger name g).2 other = levelLine g other.
Proof. unfold levelLine. by rewrite currentLevel_GetLogger. Qed.

Lemma written_printLevels names : forall w g,
  written (printLevels names w g).1
  = written w +:+ concatAll (levelLine g <$> names).
Proof.
  induction names as [|name names IH]; intros w g.
  - cbn. by rewrite string_app_nil_r.
  - cbn [printLevels fmap list_fmap]. rewrite concatAll_cons.
    pose proof (fun other => levelLine_GetLogger name g other) as Hrest.
    pose proof (GetLogger_currentLevel name g) as Hname.
    unfold levelLine at 1. rewrite Hname.
    destruct (gol.GetLogger name g) as [logger g']. cbn [fst snd] in *.
    rewrite IH.
    assert (levelLine g' <$> names = levelLine g <$> names) as ->
      by (apply list_fmap_ext; intros; apply Hrest).
    destruct logger as [level|].
    + unfold Fprintf. by rewrite written_Write, string_app_assoc.
    + reflexivity.
Qed.

Lemma setLevels_levels names level x : forall g,
  gol.currentLevel (setLevels names level g) x
  = match gol.currentLevel g x with
    | Some old => Some (if bool_decide (x ∈ names) then level else old)
    | None => None
    end.
Proof.
  induction names as [|name names IH]; intros g.
  - cbn [setLevels]. destruct (gol.currentLevel g x); [|done].
    by rewrite bool_decide_eq_false_2 by apply not_elem_of_nil.
  - cbn [setLevels].
    pose proof (currentLevel_GetLogger name g x) as Hget.
    pose proof (GetLogger_currentLevel name g) as Hname.
    destruct (gol.GetLogger name g) as [logger g']. cbn [fst snd] in *.
    rewrite IH. destruct logger as [l|].
    + rewrite currentLevel_SetLevel. destruct (decide (name = x)) as [->|Hne].
      * rewrite Hname. rewrite (bool_decide_eq_true_2 (x ∈ x :: names))
          by apply list_elem_of_here.
        by destruct (bool_decide (x ∈ names)).
      * rewrite Hget.
        assert (bool_decide (x ∈ name :: names) = bool_decide (x ∈ names)) as ->
          by (apply bool_decide_ext; rewrite elem_of_cons;
              split; [intros [?|?]; [congruence|done]|by right]).
        reflexivity.
    + rewrite Hget. destruct (decide (name = x)) as [->|Hne].
      * by rewrite Hname.
      * assert (bool_decide (x ∈ name :: names) = bool_decide (x ∈ names)) as ->
          by (apply bool_decide_ext; rewrite elem_of_cons;
              split; [intros [?|?]; [congruence|done]|by right]).
        reflexivity.
Qed.

(** X3. A request to the log task without a [logger] parameter, or with
    an empty list of loggers, is answered with status 200, no header and
    an empty body, and leaves the process as it was, whatever its [level]
    parameter: the level is not even looked at. *)
Theorem logTask_without_logger_does_nothing r p :
  Query r !! "logger" = None \/ Query r !! "logger" = Some [] ->
  respond logTask_ServeHTTP r p
  = {| Status := 200; ResponseHeader := ∅; Body := "" |}
  /\ after logTask_ServeHTTP r p = p.
Proof.
  intros [Hnone|Hnil]; unfold respond, after, logTask_ServeHTTP;
    [rewrite Hnone|rewrite Hnil]; by split.
Qed.

(** X4. Without a level (no [level] parameter, or an empty one), the log
    task answers with status 200 and one line for each named logger that
    is a default logger, in the order of the request and as often as the
    logger is named, with the level the logger has; loggers of other
    implementations give no line, and no logger changes its level. *)
Theorem logTask_reports_current_levels r p names :
  Query r !! "logger" = Some names ->
  Get (Query r) "level" = "" ->
  Status (respond logTask_ServeHTTP r p) = 200
  /\ Body (respond logTask_ServeHTTP r p)
     = concatAll (levelLine (loggers p) <$> names)
  /\ forall other,
       gol.currentLevel (loggers (after logTask_ServeHTTP r p)) other
       = gol.currentLevel (loggers p) other.
Proof.
  intros Hnames Hlevel. unfold respond, after, logTask_ServeHTTP.
  rewrite Hnames, Hlevel. destruct names as [|name names]; [by repeat split|].
  destruct (decide ("" = "")); [|done].
  pose proof (Status_printLevels (name :: names) newResponseWriter (loggers p)
                eq_refl) as Hstatus.
  pose proof (written_printLevels (name :: names) newResponseWriter (loggers p))
    as Hbody.
  pose proof (fun other => currentLevel_printLevels (name :: names) other
                             newResponseWriter (loggers p)) as Hlevels.
  destruct (printLevels (name :: names) newResponseWriter (loggers p)) as [w g].
  cbn [fst snd loggers withLoggers] in *.
  split; [exact Hstatus|]. split; [|exact Hlevels].
  by rewrite Body_finish, Hbody.
Qed.

(** X5. With a level text that [parseLogLevel] accepts as [lvl], the log
    task sets the level of every named logger that is a default logger:
    afterwards each of them has level [lvl], each named logger of another
    implementation is still without a level, and the response, with
    status 200, has the line with [lvl] for each named default logger,
    in the order of the request. *)
Theorem logTask_sets_the_named_loggers r p names level lvl :
  Query r !! "logger" = Some names ->
  Get (Query r) "level" = level ->
  parseLogLevel level = (lvl, true) ->
  Status (respond logTask_ServeHTTP r p) = 200
  /\ Body (respond logTask_ServeHTTP r p)
     = concatAll ((fun name =>
                     match gol.currentLevel (loggers p) name with
                     | Some _ => name +:+ ": " +:+ LevelString lvl +:+ LF
                     | None => ""
                     end) <$> names)
  /\ Forall (fun name =>
               gol.currentLevel (loggers (after logTask_ServeHTTP r p)) name
               = match gol.currentLevel (loggers p) name with
                 | Some _ => Some lvl
                 | None => None
                 end) names.
Proof.
  intros Hnames Hlevel Hparse.
  assert (level <> "") as Hne by (intros ->; discriminate Hparse).
  unfold respond, after, logTask_ServeHTTP. rewrite Hnames, Hlevel.
  destruct names as [|name names]; [by repeat split|].
  destruct (decide (level = "")); [done|]. rewrite Hparse.
  set (g1 := setLevels (name :: names) lvl (loggers p)).
  pose proof (Status_printLevels (name :: names) newResponseWriter g1 eq_refl)
    as Hstatus.
  pose proof (written_printLevels (name :: names) newResponseWriter g1) as Hbody.
  pose proof (fun other => currentLevel_printLevels (name :: names) other
                             newResponseWriter g1) as Hlevels.
  destruct (printLevels (name :: names) newResponseWriter g1) as [w g].
  cbn [fst snd loggers withLoggers] in *.
  split; [exact Hstatus|]. split.
  - rewrite Body_finish, Hbody. cbn [written newResponseWriter].
    change ("" +:+ ?t) with t. f_equal.
    apply list_fmap_ext. intros i x Hx.
    unfold levelLine, g1. rewrite setLevels_levels.
    destruct (gol.currentLevel (loggers p) x); [|done].
    by rewrite bool_decide_eq_true_2 by (by eapply list_elem_of_lookup_2).
  - apply Forall_forall. intros x Hx. rewrite Hlevels.
    unfold g1. rewrite setLevels_levels.
    destruct (gol.currentLevel (loggers p) x); [|done].
    by rewrite bool_decide_eq_true_2.
Qed.

End LogTaskReport.

Lemma logTask_without_logger_witness :
  admin.respond admin.logTask_ServeHTTP
    (sample.request [("level", ["bogus"])]) sample.process
  = {| http.Status := 200; http.ResponseHeader := ∅; http.Body := "" |}
  /\ admin.after admin.logTask_ServeHTTP
       (sample.request [("level", ["bogus"])]) sample.process
     = sample.process.
Proof.
  apply (logTask_without_logger_does_nothing
           (sample.request [("level", ["bogus"])]) sample.process).
  left. reflexivity.
Defined.

Lemma logTask_reports_witness :
  http.Status (admin.respond admin.logTask_ServeHTTP
                 (sample.request [("logger", ["x"; "foreign"; "y"; "x"])])
                 sample.process) = 200
  /\ http.Body (admin.respond admin.logTask_ServeHTTP
                  (sample.request [("logger", ["x"; "foreign"; "y"; "x"])])
                  sample.process)
     = admin.concatAll (admin.levelLine (admin.loggers sample.process)
                          <$> ["x"; "foreign"; "y"; "x"])
  /\ forall other,
       gol.currentLevel
         (admin.loggers
            (admin.after admin.logTask_ServeHTTP
               (sample.request [("logger", ["x"; "foreign"; "y"; "x"])])
               sample.process)) other
       = gol.currentLevel (admin.loggers sample.process) other.
Proof.
  apply (logTask_reports_current_levels
           (sample.request [("logger", ["x"; "foreign"; "y"; "x"])])
           sample.process ["x"; "foreign"; "y"; "x"]).
  - reflexivity.
  - reflexivity.
Defined.

(** The report for two default loggers and one of another implementation. *)
Example logTask_report_lines :
  http.Body (admin.respond admin.logTask_ServeHTTP
               (sample.request [("logger", ["x"; "foreign"; "y"; "x"])])
               sample.process)
  = "x: INFO" +:+ LF +:+ "y: INFO" +:+ LF +:+ "x: INFO" +:+ LF.
Proof. by vm_compute. Qed.

Lemma logTask_sets_witness :
  http.Status (admin.respond admin.logTask_ServeHTTP
                 (sample.request [("logger", ["x"; "foreign"]); ("level", ["debug"])])
                 sample.process) = 200
  /\ http.Body (admin.respond admin.logTask_ServeHTTP
                  (sample.request [("logger", ["x"; "foreign"]); ("level", ["debug"])])
                  sample.process)
     = admin.concatAll
         ((fun name =>
             match gol.currentLevel (admin.loggers sample.process) name with
             | Some _ => name +:+ ": " +:+ LevelString LevelDebug +:+ LF
             | None => ""
             end) <$> ["x"; "foreign"])
  /\ Forall (fun name =>
               gol.currentLevel
                 (admin.loggers
                    (admin.after admin.logTask_ServeHTTP
                       (sample.request
                          [("logger", ["x"; "foreign"]); ("level", ["debug"])])
                       sample.process)) name
               = match gol.currentLevel (admin.loggers sample.process) name with
                 | Some _ => Some LevelDebug
                 | None => None
                 end) ["x"; "foreign"].
Proof.
  apply (logTask_sets_the_named_loggers
           (sample.request [("logger", ["x"; "foreign"]); ("level", ["debug"])])
           sample.process ["x"; "foreign"] "debug" LevelDebug).
  - reflexivity.
  - reflexivity.
  - reflexivity.
Defined.

(** ** The metrics handler and the home page *)

Section PageFacts.
Import http admin.
Implicit Types (w : ResponseWriter) (r : Request) (p : Process).

Lemma Status_Write data w : Status (finish (Write data w)) = Status (finish w).
Proof.
  rewrite !Status_finish, sent_Write. by destruct (sent w) as [[code h]|].
Qed.

Lemma Status_writeVars Quote kvs : forall first w,
  Status (finish (writeVars Quote first kvs w)) = Status (finish w).
Proof.
  induction kvs as [|[key value] kvs IH]; intros first w; [done|].
  cbn [writeVars]. unfold Fprintf. rewrite IH, Status_Write.
  destruct first; cbn [negb]; by rewrite ?Status_Write.
Qed.

Lemma written_writeVars Quote kvs : forall first w,
  written (writeVars Quote first kvs w)
  = written w
    +:+ (if first
         then String.concat "," ((fun kv => Quote kv.1 +:+ ": " +:+ kv.2) <$> kvs)
         else match kvs with
              | [] => ""
              | _ => "," +:+ String.concat ","
                               ((fun kv => Quote kv.1 +:+ ": " +:+ kv.2) <$> kvs)
              end).
Proof.
  induction kvs as [|[key value] kvs IH]; intros first w.
  - destruct first; cbn; by rewrite string_app_nil_r.
  - cbn [writeVars]. rewrite IH. unfold Fprintf.
    destruct first; cbn [negb]; rewrite !written_Write;
      destruct kvs as [|kv kvs]; cbn [fmap list_fmap String.concat fst snd];
      rewrite ?string_app_assoc, ?string_app_nil_r; reflexivity.
Qed.

(** X6. The metrics handler answers with status 200, content type
    [application/json] and, between braces, the published variables in
    the order of [expvar.Do], each as quoted key, colon, space and value,
    with one comma between two variables and none before the first or
    after the last; it leaves the process as it was. *)
Theorem metrics_body_is_comma_separated (Quote : string -> string) r p :
  Status (respond (metricsHandler_ServeHTTP Quote) r p) = 200
  /\ ResponseHeader (respond (metricsHandler_ServeHTTP Quote) r p)
       !! "Content-Type" = Some ["application/json"]
  /\ Body (respond (metricsHandler_ServeHTTP Quote) r p)
     = "{" +:+ String.concat ","
                 ((fun kv => Quote kv.1 +:+ ": " +:+ kv.2) <$> expvars p)
       +:+ "}"
  /\ after (metricsHandler_ServeHTTP Quote) r p = p.
Proof.
  unfold respond, after, metricsHandler_ServeHTTP. cbn [fst snd].
  split; [|split; [|split; [|reflexivity]]].
  - unfold Fprintf. by rewrite Status_Write, Status_writeVars, Status_Write.
  - change (ResponseHeader (finish ?w)) with (wire w).
    by rewrite wire_Fprintf, wire_writeVars, wire_Fprintf.
  - rewrite Body_finish. unfold Fprintf.
    rewrite written_Write, written_writeVars, written_Write.
    cbn [written Set_ newResponseWriter]. by rewrite string_app_assoc.
Qed.

Lemma homeItems_item contextPath h hs :
  h ∈ hs ->
  exists before behind,
    homeItems contextPath hs = before +:+ homeItem contextPath h +:+ behind.
Proof.
  induction hs as [|h' hs IH]; intros Hin; [by apply elem_of_nil in Hin|].
  cbn [homeItems]. apply elem_of_cons in Hin as [<-|Hin].
  - exists "", (homeItems contextPath hs). unfold homeItem.
    by rewrite !string_app_assoc.
  - destruct (IH Hin) as (before & behind & ->).
    exists (homeItem contextPath h' +:+ before), behind. unfold homeItem.
    by rewrite !string_app_assoc.
Qed.

Lemma adminHTML_frame :
  exists head tail, forall items, adminHTML items = head +:+ items +:+ tail.
Proof.
  exists ("<!DOCTYPE html>" +:+ LF +:+ "<html>" +:+ LF +:+ "<head>" +:+ LF
          +:+ TAB +:+ "<title>Operational Menu</title>" +:+ LF
          +:+ "</head>" +:+ LF +:+ "<body>" +:+ LF
          +:+ TAB +:+ "<h1>Operational Menu</h1>" +:+ LF +:+ TAB +:+ "<ul>"),
         ("</ul>" +:+ LF +:+ "</body>" +:+ LF +:+ "</html>" +:+ LF).
  intros items. reflexivity.
Qed.

(** X7. The home page, with status 200 and content type [text/html],
    has for every handler that it was given the item that links the
    handler's name to its path under the context path; it leaves the
    process as it was. *)
Theorem home_page_lists_every_handler hs contextPath r p :
  Status (respond (adminHomeHandler hs contextPath) r p) = 200
  /\ ResponseHeader (respond (adminHomeHandler hs contextPath) r p)
       !! "Content-Type" = Some ["text/html"]
  /\ Forall (fun h => contains (Body (respond (adminHomeHandler hs contextPath) r p))
                        (homeItem contextPath h)) hs
  /\ after (adminHomeHandler hs contextPath) r p = p.
Proof.
  split; [reflexivity|]. split; [reflexivity|]. split; [|reflexivity].
  apply Forall_forall. intros h Hin.
  unfold respond, adminHomeHandler. cbn [fst].
  rewrite Body_finish. unfold Fprintf. rewrite written_Write.
  cbn [written Set_ newResponseWriter]. change ("" +:+ ?t) with t.
  destruct adminHTML_frame as (head & tail & ->).
  destruct (homeItems_item contextPath h hs Hin) as (before & behind & ->).
  exists (head +:+ before), (behind +:+ tail).
  by rewrite !string_app_assoc.
Qed.

End PageFacts.

(** ** Registration, composed *)

(** Registration is by appending: two calls of [AddHandler] (of
    [AddTask]) register what one call with all the handlers (tasks)
    registers, in the same order; a call without handlers (tasks) changes
    nothing; and handlers and tasks can be registered in either order. *)
Lemma registration_composes (env : admin.AdminEnvironment)
    (hs hs' : list admin.AdminHandler) (ts ts' : list admin.Task) :
  admin.AddHandler (admin.AddHandler env hs) hs' = admin.AddHandler env (hs ++ hs')
  /\ admin.AddTask (admin.AddTask env ts) ts' = admin.AddTask env (ts ++ ts')
  /\ admin.AddTask (admin.AddHandler env hs) ts
     = admin.AddHandler (admin.AddTask env ts) hs
  /\ admin.AddHandler env [] = env
  /\ admin.AddTask env [] = env.
Proof.
  destruct env as [handlers tasks]. unfold admin.AddHandler, admin.AddTask.
  cbn. by rewrite !app_assoc, !app_nil_r.
Qed.

(** ** The health check handler: the whole body, and the order of the map *)

Section HealthCheckBody.
Import http admin.
Implicit Types (w : ResponseWriter) (r : Request) (p : Process)
  (rs : list (string * Result)).

Lemma string_length_app (a b : string) :
  String.length (a +:+ b) = String.length a + String.length b.
Proof.
  induction a as [|x a IH]; [reflexivity|].
  change (S (String.length (a +:+ b)) = S (String.length a + String.length b)).
  by rewrite IH.
Qed.

Lemma written_writeResults_reports rs : forall w,
  written (writeResults rs w)
  = written w +:+ concatAll ((fun entry => report entry.1 entry.2) <$> rs).
Proof.
  induction rs as [|[name result] rs IH]; intros w.
  - cbn. by rewrite string_app_nil_r.
  - cbn [writeResults fmap list_fmap fst snd].
    rewrite IH, written_writeResult, concatAll_cons.
    by rewrite string_app_assoc.
Qed.

Lemma reports_length_Permutation rs rs' :
  rs ≡ₚ rs' ->
  String.length (concatAll ((fun entry => report entry.1 entry.2) <$> rs))
  = String.length (concatAll ((fun entry => report entry.1 entry.2) <$> rs')).
Proof.
  induction 1 as [|entry rs rs' _ IH|entry entry' rs|rs rs' rs'' _ IH _ IH'].
  - reflexivity.
  - cbn [fmap list_fmap]. rewrite !concatAll_cons, !string_length_app.
    by rewrite IH.
  - cbn [fmap list_fmap]. rewrite !concatAll_cons, !string_length_app. lia.
  - by rewrite IH.
Qed.

(** The status of the response, by the number of results and by what
    [isAllHealthy] finds. *)
Lemma healthcheck_status rangeFirst rangeSecond r p :
  (RunHealthChecks p <> ∅ -> rangeSecond (RunHealthChecks p) <> []) ->
  Status (respond (healthCheckHandler_ServeHTTP rangeFirst rangeSecond) r p)
  = if Nat.eqb (size (RunHealthChecks p)) 0 then 501
    else if isAllHealthy rangeFirst (RunHealthChecks p) then 200 else 500.
Proof.
  intros Hrange. unfold respond, healthCheckHandler_ServeHTTP.
  destruct (Nat.eqb (size (RunHealthChecks p)) 0) eqn:Hsize; [reflexivity|].
  apply Nat.eqb_neq, map_size_non_empty_iff in Hsize. cbn [fst].
  rewrite Status_finish, (sent_writeResults _ _ (Hrange Hsize)).
  by destruct (isAllHealthy rangeFirst (RunHealthChecks p)).
Qed.

Lemma healthcheck_body rangeFirst rangeSecond r p :
  RunHealthChecks p <> ∅ ->
  Body (respond (healthCheckHandler_ServeHTTP rangeFirst rangeSecond) r p)
  = concatAll ((fun entry => report entry.1 entry.2)
                 <$> rangeSecond (RunHealthChecks p)).
Proof.
  intros Hsome. unfold respond, healthCheckHandler_ServeHTTP.
  apply map_size_non_empty_iff, Nat.eqb_neq in Hsome. rewrite Hsome.
  cbn [fst]. rewrite Body_finish, written_writeResults_reports.
  destruct (negb _); rewrite ?written_WriteHeader; reflexivity.
Qed.

(** X8. When there are health checks, the body of the health check
    response is the reports of the results, one after the other in the
    order in which the handler's loop visits the map, and nothing else. *)
Theorem healthcheck_body_is_the_reports rangeFirst rangeSecond r p :
  RunHealthChecks p <> ∅ ->
  Body (respond (healthCheckHandler_ServeHTTP rangeFirst rangeSecond) r p)
  = concatAll ((fun entry => report entry.1 entry.2)
                 <$> rangeSecond (RunHealthChecks p)).
Proof. apply healthcheck_body. Qed.

Section Orders.
(** Two runs of the handler on the same results, each with its own
    orders of iteration. *)
Variables rangeFirst rangeSecond rangeFirst' rangeSecond'
  : gmap string Result -> list (string * Result).
Hypothesis rangeFirst_entries : forall m, rangeFirst m ≡ₚ map_to_list m.
Hypothesis rangeSecond_entries : forall m, rangeSecond m ≡ₚ map_to_list m.
Hypothesis rangeFirst'_entries : forall m, rangeFirst' m ≡ₚ map_to_list m.
Hypothesis rangeSecond'_entries : forall m, rangeSecond' m ≡ₚ map_to_list m.

(** X9. The status of the health check response and the length of its
    body do not depend on the order in which Go ranges over the map of
    results; only the order of the reports in the body does. *)
Theorem healthcheck_status_is_independent_of_the_order r p :
  Status (respond (healthCheckHandler_ServeHTTP rangeFirst rangeSecond) r p)
  = Status (respond (healthCheckHandler_ServeHTTP rangeFirst' rangeSecond') r p)
  /\ String.length
       (Body (respond (healthCheckHandler_ServeHTTP rangeFirst rangeSecond) r p))
     = String.length
         (Body (respond (healthCheckHandler_ServeHTTP rangeFirst' rangeSecond') r p)).
Proof.
  assert (forall range : gmap string Result -> list (string * Result),
            (forall m, range m ≡ₚ map_to_list m) ->
            RunHealthChecks p <> ∅ -> range (RunHealthChecks p) <> []) as Hrange.
  { intros range Hentries Hsome Hnil.
    apply Hsome, map_to_list_empty_iff, Permutation_nil.
    by rewrite <- Hnil, Hentries. }
  split.
  - rewrite !healthcheck_status by auto.
    destruct (Nat.eqb _ 0); [reflexivity|].
    pose proof (isAllHealthy_map_Forall rangeFirst rangeFirst_entries
                  (RunHealthChecks p)) as H1.
    pose proof (isAllHealthy_map_Forall rangeFirst' rangeFirst'_entries
                  (RunHealthChecks p)) as H2.
    destruct (isAllHealthy rangeFirst _), (isAllHealthy rangeFirst' _);
      [reflexivity| | |reflexivity].
    + assert (false = true) by (apply H2, H1; reflexivity). discriminate.
    + assert (false = true) by (apply H1, H2; reflexivity). discriminate.
  - destruct (decide (RunHealthChecks p = ∅)) as [Hempty|Hsome].
    + unfold respond, healthCheckHandler_ServeHTTP.
      by rewrite Hempty, map_size_empty.
    + rewrite !healthcheck_body by done.
      apply reports_length_Permutation.
      by rewrite rangeSecond_entries, rangeSecond'_entries.
Qed.

End Orders.

End HealthCheckBody.

Lemma healthcheck_body_witness :
  http.Body
    (admin.respond (admin.healthCheckHandler_ServeHTTP sample.range sample.rangeBack)
       sample.noQuery sample.process)
  = admin.concatAll ((fun entry => admin.report entry.1 entry.2)
                       <$> sample.rangeBack (admin.RunHealthChecks sample.process)).
Proof.
  apply (healthcheck_body_is_the_reports sample.range sample.rangeBack
           sample.noQuery sample.process).
  intros Hempty. apply (f_equal (fun m => m !! "A")) in Hempty.
  vm_compute in Hempty. discriminate Hempty.
Defined.

Lemma healthcheck_order_witness :
  http.Status
    (admin.respond (admin.healthCheckHandler_ServeHTTP sample.range sample.range)
       sample.noQuery sample.process)
  = http.Status
      (admin.respond
         (admin.healthCheckHandler_ServeHTTP sample.rangeBack sample.rangeBack)
         sample.noQuery sample.process)
  /\ String.length
       (http.Body
          (admin.respond (admin.healthCheckHandler_ServeHTTP sample.range sample.range)
             sample.noQuery sample.process))
     = String.length
         (http.Body
            (admin.respond
               (admin.healthCheckHandler_ServeHTTP sample.rangeBack sample.rangeBack)
               sample.noQuery sample.process)).
Proof.
  apply (healthcheck_status_is_independent_of_the_order
           sample.range sample.range sample.rangeBack sample.rangeBack
           (fun m => reflexivity _) (fun m => reflexivity _)
           (fun m => reverse_Permutation _) (fun m => reverse_Permutation _)
           sample.noQuery sample.process).
Defined.

(** In the other order the report of B comes first. *)
Example healthcheck_B_and_A :
  http.Body
    (admin.respond (admin.healthCheckHandler_ServeHTTP sample.range sample.rangeBack)
       sample.noQuery sample.process)
  = "B:" +:+ LF +:+ TAB +:+ "Healthy: false" +:+ LF
    +:+ TAB +:+ "Message: down" +:+ LF +:+ TAB +:+ "Cause: timeout" +:+ LF
    +:+ "A:" +:+ LF +:+ TAB +:+ "Healthy: true" +:+ LF.
Proof. by vm_compute. Qed.

(** ** The starting transition of the admin environment *)

Section AdminStarting.
Import http admin.
Variable typeName : Task -> string.
Implicit Types (env : AdminEnvironment) (server : ServerHandler)
  (names : list string).

Lemma Handle_run method path h server :
  Handle method path h server
  = mkRan (Ok tt)
      {| PathPrefix := PathPrefix server;
         routes := routes server
                   ++ [{| method := method; path := path; handler := h |}] |}
      [].
Proof. reflexivity. Qed.

Lemma gets_run {W A} (f : W -> A) (w : W) : gets f w = mkRan (Ok (f w)) w [].
Proof. reflexivity. Qed.

Lemma handleHandlers_run hs : forall server,
  handleHandlers hs server
  = mkRan (Ok tt)
      {| PathPrefix := PathPrefix server;
         routes := routes server
                   ++ ((fun h => {| method := "GET"; path := Path h;
                                    handler := ServeHTTP h |}) <$> hs) |}
      [].
Proof.
  induction hs as [|h hs IH]; intros server.
  - cbn. rewrite app_nil_r. by destruct server.
  - cbn [handleHandlers]. rewrite (bind_run _ _ _ _ _ _ (Handle_run _ _ _ _)), IH.
    cbn [outcome world events PathPrefix routes fmap list_fmap Datatypes.app].
    by rewrite <- app_assoc.
Qed.

Lemma handleTasks_run ts : forall server,
  handleTasks ts server
  = mkRan (Ok tt)
      {| PathPrefix := PathPrefix server;
         routes := routes server
                   ++ ((fun t => {| method := "POST";
                                    path := tasksUri +:+ "/" +:+ TaskName t;
                                    handler := TaskServeHTTP t |}) <$> ts) |}
      [].
Proof.
  induction ts as [|t ts IH]; intros server.
  - cbn. rewrite app_nil_r. by destruct server.
  - cbn [handleTasks]. rewrite (bind_run _ _ _ _ _ _ (Handle_run _ _ _ _)), IH.
    cbn [outcome world events PathPrefix routes fmap list_fmap Datatypes.app].
    by rewrite <- app_assoc.
Qed.

Lemma onStarting_run env names server :
  onStarting typeName env names server
  = mkRan (Ok tt)
      {| PathPrefix := PathPrefix server;
         routes := routes server ++ routesOf (PathPrefix server) env |}
      (EvLog adminLoggerName LevelInfo
         ("tasks =" +:+ LF +:+ LF
            +:+ taskLines typeName (PathPrefix server) (tasks env))
       :: (if decide (names = [])
           then [EvLog adminLoggerName LevelWarn noHealthChecksWarning]
           else [])
       ++ [EvLog adminLoggerName LevelDebug ("health checks = " +:+ fmt_v names)]).
Proof.
  unfold onStarting.
  rewrite (bind_run _ _ _ _ _ _ (gets_run _ _)).
  rewrite (bind_run _ _ _ _ _ _ (Handle_run _ _ _ _)).
  rewrite (bind_run _ _ _ _ _ _ (handleHandlers_run _ _)).
  rewrite (bind_run _ _ _ _ _ _ (handleTasks_run _ _)).
  unfold routesOf.
  destruct names as [|name names]; cbn; by rewrite <- !app_assoc.
Qed.

(** X10. [onStarting] of the admin environment calls [Handle] on the
    router for the home page at [/] with GET, then for each handler at its
    path with GET in the order of registration, then for each task at
    [/tasks/] and its name with POST in the order of registration, and for
    nothing else: one call for the home page and one for each handler and
    task, whatever the paths are, so that handlers that share a path get
    a call each. It returns normally. *)
Theorem onStarting_routes_handlers_then_tasks env names server :
  outcome (onStarting typeName env names server) = Ok tt
  /\ routes (world (onStarting typeName env names server))
     = routes server ++ routesOf (PathPrefix server) env
  /\ length (routes (world (onStarting typeName env names server)))
     = length (routes server) + 1 + length (handlers env) + length (tasks env)
  /\ PathPrefix (world (onStarting typeName env names server))
     = PathPrefix server.
Proof.
  rewrite onStarting_run. cbn [outcome world routes PathPrefix].
  repeat split. unfold routesOf.
  rewrite length_app. cbn [length]. rewrite length_app, !length_fmap. lia.
Qed.

(** X11. [onStarting] of the admin environment logs the list of tasks,
    then the list of health check names; between the two it logs the
    warning that the application has no health checks, and it does so
    exactly when there is no health check name. *)
Theorem onStarting_warns_without_healthchecks env names server :
  (EvLog adminLoggerName LevelWarn noHealthChecksWarning
     ∈ events (onStarting typeName env names server)
   <-> names = [])
  /\ head (events (onStarting typeName env names server))
     = Some (EvLog adminLoggerName LevelInfo
               ("tasks =" +:+ LF +:+ LF
                  +:+ taskLines typeName (PathPrefix server) (tasks env)))
  /\ last (events (onStarting typeName env names server))
     = Some (EvLog adminLoggerName LevelDebug
               ("health checks = " +:+ fmt_v names)).
Proof.
  rewrite onStarting_run. cbn [events]. split; [|split].
  - destruct (decide (names = [])) as [Hnil|Hsome].
    + split; [done|]. intros _. apply list_elem_of_further, list_elem_of_here.
    + split; [|done]. intros Hin. cbn in Hin.
      apply elem_of_cons in Hin as [Heq|Hin]; [discriminate Heq|].
      apply list_elem_of_singleton in Hin. discriminate Hin.
  - reflexivity.
  - by destruct (decide (names = [])).
Qed.

End AdminStarting.

(** The routes of the default environment under the prefix [/admin]. *)
Example default_routes :
  (fun route => (admin.method route, admin.path route))
    <$> admin.routes
          (world (admin.onStarting (fun _ => "*core.task") sample.env ["A"; "B"]
                    sample.router))
  = [("GET", "/"); ("GET", "/metrics"); ("GET", "/ping"); ("GET", "/runtime");
     ("GET", "/healthcheck"); ("POST", "/tasks/gc"); ("POST", "/tasks/log")].
Proof. by vm_compute. Qed.

(** The line that [logTasks] writes for the gc task. *)
Example gc_task_line :
  admin.taskLines (fun _ => "*core.gcTask") "/admin" [admin.gcTask]
  = "    POST    /admin/tasks/gc (" +:+ "*core.gcTask)" +:+ LF.
Proof. by vm_compute. Qed.

(** ** The monad, further *)

Lemma bind_assoc {W A B C} (m : Exec W A) (f : A -> Exec W B)
    (g : B -> Exec W C) w :
  bind (bind m f) g w = bind m (fun a => bind (f a) g) w.
Proof.
  unfold bind. destruct (m w) as [[a|msg] w1 t1]; cbn; [|done].
  destruct (f a w1) as [[b|msg] w2 t2]; cbn; [|done].
  destruct (g b w2) as [out w3 t3]; cbn. by rewrite app_assoc.
Qed.

Lemma bind_ext {W A B} (m m' : Exec W A) (f f' : A -> Exec W B) w :
  m w = m' w -> (forall a w', f a w' = f' a w') -> bind m f w = bind m' f' w.
Proof.
  intros Hm Hf. unfold bind. rewrite Hm.
  destruct (outcome (m' w)); [|done]. by rewrite Hf.
Qed.

Lemma bind_ret_l {W A B} (a : A) (f : A -> Exec W B) w : bind (ret a) f w = f a w.
Proof. unfold bind, ret. cbn. by destruct (f a w). Qed.

Lemma bind_ret_r {W} (m : Exec W unit) w : bind m (fun _ => ret tt) w = m w.
Proof.
  unfold bind, ret. destruct (m w) as [[[]|msg] w1 t1]; cbn; [|done].
  by rewrite app_nil_r.
Qed.

(** ** The lifecycle, further *)

Section LifecycleCompose.
Import core.
Context {W : Type}.
Implicit Types (env : LifecycleEnvironment W) (o : Managed W) (w : W).

Lemma startAt_ext env env' i w :
  managedObjects env !! i = managedObjects env' !! i ->
  startAt env i w = startAt env' i w.
Proof. intros H. unfold startAt. by rewrite H. Qed.

Lemma stopAt_ext env env' i w :
  managedObjects env !! i = managedObjects env' !! i ->
  stopAt env i w = stopAt env' i w.
Proof. intros H. unfold stopAt. by rewrite H. Qed.

Lemma startLoop_ext env env' n : forall i w,
  (forall j, j < i + n -> managedObjects env !! j = managedObjects env' !! j) ->
  startLoop env i n w = startLoop env' i n w.
Proof.
  induction n as [|n IH]; intros i w Hsame; [done|].
  cbn [startLoop]. apply bind_ext.
  - apply startAt_ext, Hsame. lia.
  - intros _ w'. apply IH. intros j Hj. apply Hsame. lia.
Qed.

Lemma stopLoop_ext env env' n : forall w,
  (forall j, j < n -> managedObjects env !! j = managedObjects env' !! j) ->
  stopLoop env n w = stopLoop env' n w.
Proof.
  induction n as [|n IH]; intros w Hsame; [done|].
  cbn [stopLoop]. apply bind_ext.
  - apply stopAt_ext, Hsame. lia.
  - intros _ w'. apply IH. intros j Hj. apply Hsame. lia.
Qed.

Lemma startLoop_snoc env n : forall i w,
  startLoop env i (S n) w
  = bind (startLoop env i n) (fun _ => startAt env (i + n)) w.
Proof.
  induction n as [|n IH]; intros i w.
  - cbn [startLoop]. rewrite bind_ret_l, bind_ret_r. by rewrite Nat.add_0_r.
  - change (startLoop env i (S (S n)) w)
      with (bind (startAt env i) (fun _ => startLoop env (S i) (S n)) w).
    rewrite (bind_ext _ (startAt env i) _
               (fun _ => bind (startLoop env (S i) n)
                           (fun _ => startAt env (S i + n))) w eq_refl)
      by (intros _ w'; apply IH).
    rewrite <- bind_assoc. cbn [startLoop].
    by rewrite Nat.add_succ_r.
Qed.

Lemma Manage_lookup_old env o j :
  j < length (managedObjects env) ->
  managedObjects (Manage env o) !! j = managedObjects env !! j.
Proof. intros Hj. cbn. by apply lookup_app_l. Qed.

Lemma Manage_lookup_new env o :
  managedObjects (Manage env o) !! length (managedObjects env) = Some o.
Proof. cbn. by rewrite lookup_app_r, Nat.sub_diag. Qed.

Lemma Manage_length env o :
  length (managedObjects (Manage env o)) = S (length (managedObjects env)).
Proof. cbn. rewrite length_app. cbn. lia. Qed.

(** X12. An object registered last is started last and stopped first:
    [onStarting] of the environment with one more object is [onStarting]
    of the environment without it, then the call of [Start] on the new
    object with its warning if it fails; [onStopped] is the call of
    [Stop] on the new object with its warning if it fails, then
    [onStopped] of the environment without it. *)
Theorem last_registered_starts_last_and_stops_first env o w :
  onStarting (Manage env o) w
  = mkRan (Ok tt)
      (Start o (world (onStarting env w))).2
      (events (onStarting env w)
       ++ EvStart (length (managedObjects env))
            (Start o (world (onStarting env w))).1
          :: warnEvents Starting (Start o (world (onStarting env w))).1)
  /\ onStopped (Manage env o) w
     = mkRan (Ok tt)
         (world (onStopped env (Stop o w).2))
         (EvStop (length (managedObjects env)) (Stop o w).1
          :: warnEvents Stopping (Stop o w).1
          ++ events (onStopped env (Stop o w).2)).
Proof.
  split.
  - unfold onStarting. rewrite Manage_length, startLoop_snoc. cbn [Nat.add].
    rewrite (bind_ext _ (startLoop env 0 (length (managedObjects env))) _
               (fun _ => startAt (Manage env o) (length (managedObjects env))) w)
      by (try done; apply startLoop_ext; intros j Hj;
          apply Manage_lookup_old; lia).
    destruct (startLoop_run env (length (managedObjects env)) 0 w) as (Hout & _);
      [simpl; lia|].
    unfold bind. rewrite Hout.
    by rewrite (startAt_run _ _ _ _ (Manage_lookup_new env o)).
  - unfold onStopped. rewrite Manage_length. cbn [stopLoop].
    rewrite (bind_run _ _ _ _ _ _ (stopAt_run _ _ _ _ (Manage_lookup_new env o))).
    rewrite (stopLoop_ext (Manage env o) env)
      by (intros j Hj; by apply Manage_lookup_old).
    destruct (stopLoop_run env (length (managedObjects env)) (Stop o w).2)
      as (Hout & _); [lia|].
    by rewrite Hout.
Qed.

Lemma startLoop_shape env n : forall i w,
  i + n <= length (managedObjects env) ->
  exists results,
    length results = n
    /\ events (startLoop env i n w)
       = concat (zip_with (fun j res => EvStart j res :: warnEvents Starting res)
                   (seq i n) results).
Proof.
  induction n as [|n IH]; intros i w Hle; [by exists []|].
  destruct (lookup_lt_is_Some_2 (managedObjects env) i) as [o Ho]; [lia|].
  destruct (IH (S i) (Start o w).2) as (results & Hlen & Hev); [lia|].
  exists ((Start o w).1 :: results). split; [cbn; lia|].
  cbn [startLoop]. rewrite (bind_run _ _ _ _ _ _ (startAt_run _ _ _ _ Ho)).
  cbn [events seq zip_with concat]. by rewrite Hev.
Qed.

Lemma stopLoop_shape env n : forall w,
  n <= length (managedObjects env) ->
  exists results,
    length results = n
    /\ events (stopLoop env n w)
       = concat (zip_with (fun j res => EvStop j res :: warnEvents Stopping res)
                   (reverse (seq 0 n)) results).
Proof.
  induction n as [|n IH]; intros w Hle; [by exists []|].
  destruct (lookup_lt_is_Some_2 (managedObjects env) n) as [o Ho]; [lia|].
  destruct (IH (Stop o w).2) as (results & Hlen & Hev); [lia|].
  exists ((Stop o w).1 :: results). split; [cbn; lia|].
  cbn [stopLoop]. rewrite (bind_run _ _ _ _ _ _ (stopAt_run _ _ _ _ Ho)).
  rewrite seq_S, reverse_snoc.
  cbn [events zip_with concat Nat.add]. by rewrite Hev.
Qed.

(** X13. A transition of any lifecycle environment returns normally (no
    index is out of range), and its trace is, for each object in the
    order of the transition, the call on the object, directly followed by
    the warning if the call failed, and nothing else: one warning for
    each failed call, none when no call fails. *)
Theorem transition_trace ph env w :
  outcome (transition ph env w) = Ok tt
  /\ exists results,
       length results = length (managedObjects env)
       /\ events (transition ph env w)
          = concat (zip_with (fun j res => attempt ph j res :: warnEvents ph res)
                      (callOrder ph (length (managedObjects env))) results).
Proof.
  destruct ph; cbn [transition callOrder attempt].
  - unfold onStarting. split.
    + by destruct (startLoop_run env (length (managedObjects env)) 0 w)
        as (Hout & _); [simpl; lia|].
    + by apply startLoop_shape.
  - unfold onStopped. split.
    + by destruct (stopLoop_run env (length (managedObjects env)) w)
        as (Hout & _); [lia|].
    + by apply stopLoop_shape.
Qed.

End LifecycleCompose.

(** ** The bootstrap, further *)

Section BootstrapCompose.
Import core.
Context {W Cfg Env AppCfg : Type}.
Implicit Types (bs : list (Bundle W Cfg Env AppCfg)) (w : W).

Lemma runFrom_snoc bs (b : Bundle W Cfg Env AppCfg) (configuration : Cfg)
    (environment : Env) : forall i w,
  runFrom i (bs ++ [b]) configuration environment w
  = match outcome (runFrom i bs configuration environment w) with
    | Ok None =>
        mkRan
          (Ok (bundleRun b configuration environment
                 (world (runFrom i bs configuration environment w))).1)
          (bundleRun b configuration environment
             (world (runFrom i bs configuration environment w))).2
          (events (runFrom i bs configuration environment w)
           ++ [EvBundleRun (i + length bs)
                 (bundleRun b configuration environment
                    (world (runFrom i bs configuration environment w))).1])
    | _ => runFrom i bs configuration environment w
    end.
Proof.
  induction bs as [|b0 bs IH]; intros i w.
  - cbn [Datatypes.app]. rewrite runFrom_cons. cbn [runFrom length].
    unfold ret. cbn [outcome world events Datatypes.app].
    rewrite Nat.add_0_r.
    by destruct (bundleRun b configuration environment w) as [[e|] w'].
  - cbn [Datatypes.app length]. rewrite !runFrom_cons.
    destruct (bundleRun b0 configuration environment w) as [[e|] w'];
      cbn [fst snd outcome world events]; [reflexivity|].
    rewrite IH.
    destruct (runFrom (S i) bs configuration environment w')
      as [[[e|]|msg] w'' t]; cbn [outcome world events]; [done| |done].
    by rewrite Nat.add_succ_r.
Qed.

(** X14. A bundle added with [AddBundle] is registered last, behind the
    bundles that were registered before and behind those that it
    registered itself while it was initialized, and it runs last and only
    if none of them failed: [Bootstrap.Run] afterwards is the loop of
    [Bootstrap.Run] over those bundles, followed, when that returned nil,
    by [Run] of the added bundle in the state then reached, whose result
    is the result; when one of them failed, the added bundle is not run
    and the result, the state and the trace are those of the loop. *)
Theorem added_bundle_runs_last (bootstrap bootstrap' : Bootstrap W Cfg Env AppCfg)
    (bundle : Bundle W Cfg Env AppCfg) (configuration : Cfg) (environment : Env)
    (w0 w : W) :
  outcome (AddBundle bootstrap bundle w0) = Ok bootstrap' ->
  bundles bootstrap'
  = (bundles bootstrap ++ addedBundles (Initialize bundle (seen bootstrap) w0).1)
    ++ [bundle]
  /\ BootstrapRun bootstrap' configuration environment w
     = match outcome
               (runFrom 0
                  (bundles bootstrap
                   ++ addedBundles (Initialize bundle (seen bootstrap) w0).1)
                  configuration environment w)
       with
       | Ok None =>
           mkRan
             (Ok (bundleRun bundle configuration environment
                    (world
                       (runFrom 0
                          (bundles bootstrap
                           ++ addedBundles
                                (Initialize bundle (seen bootstrap) w0).1)
                          configuration environment w))).1)
             (bundleRun bundle configuration environment
                (world
                   (runFrom 0
                      (bundles bootstrap
                       ++ addedBundles (Initialize bundle (seen bootstrap) w0).1)
                      configuration environment w))).2
             (events
                (runFrom 0
                   (bundles bootstrap
                    ++ addedBundles (Initialize bundle (seen bootstrap) w0).1)
                   configuration environment w)
              ++ [EvBundleRun
                    (length
                       (bundles bootstrap
                        ++ addedBundles
                             (Initialize bundle (seen bootstrap) w0).1))
                    (bundleRun bundle configuration environment
                       (world
                          (runFrom 0
                             (bundles bootstrap
                              ++ addedBundles
                                   (Initialize bundle (seen bootstrap) w0).1)
                             configuration environment w))).1])
       | _ =>
           runFrom 0
             (bundles bootstrap
              ++ addedBundles (Initialize bundle (seen bootstrap) w0).1)
             configuration environment w
       end.
Proof.
  intros Hadd.
  destruct (AddBundle_appends bootstrap bundle w0) as (b' & Hout & Hbundles & _).
  rewrite Hout in Hadd. injection Hadd as ->.
  split; [exact Hbundles|].
  unfold BootstrapRun. rewrite Hbundles. apply runFrom_snoc.
Qed.

End BootstrapCompose.

Lemma added_bundle_witness :
  core.bundles sample.threeBundles
  = (core.bundles sample.oneBundle
     ++ core.addedBundles
          (core.Initialize sample.nesting (core.seen sample.oneBundle) 0).1)
    ++ [sample.nesting]
  /\ core.BootstrapRun sample.threeBundles tt tt 0
     = mkRan (Ok (Some (errors.New "no database"))) 1
         [EvBundleRun 0 (Some (errors.New "no database"))].
Proof.
  apply (added_bundle_runs_last sample.oneBundle sample.threeBundles
           sample.nesting tt tt 0 0).
  reflexivity.
Defined.

(** A bundle that registers another while it is initialized comes behind
    it, and runs after it. *)
Example nested_bundle_runs_first :
  (exists bootstrap,
     outcome (core.AddBundle (core.NewBootstrap (AppCfg := unit)) sample.nesting 0)
     = Ok bootstrap
     /\ core.bundles bootstrap = [sample.assets; sample.nesting]
     /\ events (core.BootstrapRun bootstrap tt tt 0)
        = [EvBundleRun 0 None; EvBundleRun 1 None]
     /\ world (core.BootstrapRun bootstrap tt tt 0) = 11).
Proof. eexists. by vm_compute. Qed.

(** ** Command dispatch, further *)

Section RunShape.
Import core.
Context {W Cfg Env AppCfg : Type}.
Implicit Types (cs : list (Command W)) (w : W)
  (bootstrap : Bootstrap W Cfg Env AppCfg).

Lemma findCommand_index cs bootstrap arg0 : forall i w,
  (exists j c,
     cs !! j = Some c /\ Name c = arg0
     /\ gomelon.findCommand i cs bootstrap arg0 w
        = mkRan (Ok (Some (cmdRun c (Arguments bootstrap) w).1))
            (cmdRun c (Arguments bootstrap) w).2
            [EvCommandRun (i + j) (cmdRun c (Arguments bootstrap) w).1])
  \/ gomelon.findCommand i cs bootstrap arg0 w = mkRan (Ok None) w [].
Proof.
  induction cs as [|c cs IH]; intros i w; [by right|].
  cbn [gomelon.findCommand]. destruct (decide (Name c = arg0)) as [Hc|Hc].
  - left. exists 0, c. split; [done|]. split; [done|].
    unfold bind, call, ret.
    destruct (cmdRun c (Arguments bootstrap) w) as [res w'].
    cbn. by rewrite Nat.add_0_r.
  - destruct (IH (S i) w) as [(j & c' & Hj & Hname & Hrun)|Hrun]; [|by right].
    left. exists (S j), c'. split; [done|]. split; [done|].
    by rewrite Hrun, Nat.add_succ_r.
Qed.

Lemma printCommands2_run cs w :
  gomelon2.printCommands cs w
  = mkRan (Ok tt) w
      (EvPrintln <$> ((fun c => String.concat " " [Name c; ":"; Description c])
                        <$> cs)).
Proof.
  induction cs as [|c cs IH]; [reflexivity|].
  cbn [gomelon2.printCommands]. unfold bind, gomelon.println, emit.
  cbn [outcome world events]. by rewrite IH.
Qed.

Lemma printHelp2_run bootstrap w :
  gomelon2.printHelp bootstrap w
  = mkRan (Ok tt) w
      (EvPrintln <$> ("Available commands:"
                      :: ((fun c => String.concat " " [Name c; ":"; Description c])
                            <$> Commands bootstrap))).
Proof.
  unfold gomelon2.printHelp, bind, gomelon.println, emit.
  cbn [outcome world events]. by rewrite printCommands2_run.
Qed.



(** X16. The two revisions of the file differ only in the lines they
    print: for every application, argument list and state, [Run] of the
    second revision returns the same result, leaves the same state, makes
    the same calls in the same order and prints the same number of lines
    as [Run] of the first. *)
Theorem Run_revisions_agree (app : Application W Cfg Env AppCfg) args w :
  outcome (gomelon2.Run app args w) = outcome (gomelon.Run app args w)
  /\ world (gomelon2.Run app args w) = world (gomelon.Run app args w)
  /\ commandsRun (events (gomelon2.Run app args w))
     = commandsRun (events (gomelon.Run app args w))
  /\ length (printed (events (gomelon2.Run app args w)))
     = length (printed (events (gomelon.Run app args w))).
Proof.
  destruct (initBootstrap_run app args w) as (bootstrap & w' & Hinit).
  unfold gomelon.Run, gomelon2.Run. rewrite !(bind_run _ _ _ _ _ _ Hinit).
  destruct args as [|arg0 rest].
  - rewrite !bind_ret_l.
    rewrite (bind_run _ _ _ _ _ _ (printHelp_run bootstrap w')).
    rewrite (bind_run _ _ _ _ _ _ (printHelp2_run bootstrap w')).
    cbn [outcome world events ret Datatypes.app]. rewrite !app_nil_r.
    change (commandsRun (EvAppConfiguration :: EvAppInitialize :: ?t))
      with (commandsRun t).
    change (printed (EvAppConfiguration :: EvAppInitialize :: ?t))
      with (printed t).
    rewrite !commandsRun_println, !printed_println.
    cbn [length]. unfold gomelon.catalogue. by rewrite !length_fmap.
  - destruct (findCommand_index (Commands bootstrap) bootstrap arg0 0 w')
      as [(j & c & Hj & Hname & Hrun)|Hrun];
      rewrite !(bind_run _ _ _ _ _ _ Hrun); [done|].
    rewrite (bind_run _ _ _ _ _ _ (printHelp_run bootstrap w')).
    rewrite (bind_run _ _ _ _ _ _ (printHelp2_run bootstrap w')).
    cbn [outcome world events ret Datatypes.app]. rewrite !app_nil_r.
    change (commandsRun (EvAppConfiguration :: EvAppInitialize :: ?t))
      with (commandsRun t).
    change (printed (EvAppConfiguration :: EvAppInitialize :: ?t))
      with (printed t).
    rewrite !commandsRun_println, !printed_println.
    cbn [length]. unfold gomelon.catalogue. by rewrite !length_fmap.
Qed.

End RunShape.

(** The catalogue as the second revision prints it. *)
Example Run2_prints_catalogue :
  printed (events (gomelon2.Run sample.app [] 0))
  = ["Available commands:"; "server : runs the server";
     "check : checks the configuration"].
Proof. by vm_compute. Qed.
